(** * claude_colab: a shallow embedding of the coordination client

    The development follows [claude_colab.py]: the role hierarchy and the
    settings store (module-level functions over the bot folders), the key
    resolution of [connect], the chat and mention readers, [heartbeat] and
    [checkpoint] of the session object [ClaudeColab].

    Python values that come out of [json.loads] are modelled by [json];
    a Python [dict] with string keys is a finite map.  Code that can raise
    returns an [outcome]; methods of the session object are computations in
    the state monad [M] over the object's fields and the list of HTTP
    requests issued so far.  What the process reads from outside (the
    environment, the keystore file, the backend's answers) is a [World].
    Printing is not modelled.

    Definitions come first, in the order of the source; the properties
    follow, by component. *)

From Stdlib Require Import ZArith String Ascii List Bool Lia.
From Stdlib Require Import DecimalString.
From stdpp Require Import base option list strings gmap.

Local Open Scope string_scope.
Local Open Scope Z_scope.
Set Warnings "-register-all".

(** ** Python values *)

(** What [json.loads] / [resp.json()] can return.  Numbers are integers;
    non-integral JSON numbers are not represented. *)
Inductive json : Type :=
| JNull
| JBool (b : bool)
| JNum (n : Z)
| JStr (s : string)
| JList (l : list json)
| JDict (d : gmap string json).

(** A Python [dict] with string keys, up to [==] (the order of insertion,
    which [==] ignores, is not kept). *)
Abbreviation jdict := (gmap string json).

(** Exceptions.  The messages of the exceptions raised by built-in
    operations are not modelled; [RuntimeError] keeps its [args]. *)
Inductive exn : Type :=
| TypeError
| AttributeError
| KeyError
| RuntimeError (args : list json).

Inductive outcome (A : Type) : Type :=
| Return (a : A)
| Raise (e : exn).
Arguments Return {A} a.
Arguments Raise {A} e.

Definition obind {A B} (x : outcome A) (f : A -> outcome B) : outcome B :=
  match x with
  | Return a => f a
  | Raise e => Raise e
  end.

(** [bool(x)] *)
Definition truthy (j : json) : bool :=
  match j with
  | JNull => false
  | JBool b => b
  | JNum n => negb (n =? 0)
  | JStr s => negb (String.eqb s "")
  | JList l => match l with [] => false | _ => true end
  | JDict d => negb (Nat.eqb (size d) 0)
  end.

(** [bool(s)] for [s : Optional[str]] *)
Definition truthy_str (o : option string) : bool :=
  match o with
  | Some s => negb (String.eqb s "")
  | None => false
  end.

(** [d.get(k)] *)
Definition dict_get (k : string) (d : jdict) : option json := d !! k.

(** [d[k] = v] *)
Definition dict_set (k : string) (v : json) (d : jdict) : jdict := <[k := v]> d.

(** [d.update(p)]: the bindings of [p] win. *)
Definition dict_update (d p : jdict) : jdict := p ∪ d.

(** [needle in hay] on two [str] *)
Fixpoint str_contains (needle hay : string) : bool :=
  String.prefix needle hay ||
  match hay with
  | EmptyString => false
  | String _ hay' => str_contains needle hay'
  end.

(** [x == y] for a [str] [x] and a JSON value [y] *)
Definition str_eq_json (x : string) (y : json) : bool :=
  match y with
  | JStr s => String.eqb x s
  | _ => false
  end.

(** [x in c] for a [str] [x]: membership in a list, key test on a dict,
    substring test on a str, [TypeError] on anything else. *)
Definition py_in (x : string) (c : json) : outcome bool :=
  match c with
  | JList l => Return (existsb (str_eq_json x) l)
  | JDict d => Return (match dict_get x d with Some _ => true | None => false end)
  | JStr s => Return (str_contains x s)
  | JNull | JBool _ | JNum _ => Raise TypeError
  end.

(** [c[k]] for a [str] key [k]; only a dict holding [k] has it. *)
Definition py_getitem (c : json) (k : string) : outcome json :=
  match c with
  | JDict d => match dict_get k d with Some v => Return v | None => Raise KeyError end
  | _ => Raise TypeError
  end.

(** [c[k] = v] for a [str] key [k]; only a dict supports it. *)
Definition py_setitem (c : json) (k : string) (v : json) : outcome json :=
  match c with
  | JDict d => Return (JDict (dict_set k v d))
  | _ => Raise TypeError
  end.

(** [str.upper()] on ASCII text (the names in the tables below are ASCII). *)
Definition upper_ascii (c : ascii) : ascii :=
  let n := nat_of_ascii c in
  if ((97 <=? n) && (n <=? 122))%nat then ascii_of_nat (n - 32) else c.

Fixpoint upper (s : string) : string :=
  match s with
  | EmptyString => EmptyString
  | String c s' => String (upper_ascii c) (upper s')
  end.

(** [str(n)] for a length *)
Definition str_of_nat (n : nat) : string :=
  NilZero.string_of_uint (Nat.to_uint n).

(** ** Role hierarchy *)

(** [ROLE_HIERARCHY] *)
Definition ROLE_HIERARCHY : list (string * Z) :=
  [ ("supervisor", 4); ("manager", 3); ("worker", 2); ("grunt", 1); ("bot", 0) ].

(** [BOT_ROLES] *)
Definition BOT_ROLES : list (string * string) :=
  [ ("BLACK", "supervisor"); ("INTOLERANT", "worker");
    ("OLLAMA", "grunt"); ("TKINTER", "bot") ].

(** [table.get(k, default)] *)
Fixpoint table_get {V : Type} (k : string) (default : V) (t : list (string * V)) : V :=
  match t with
  | [] => default
  | (k', v) :: t' => if String.eqb k k' then v else table_get k default t'
  end.

Definition can_manage_bot (manager_name target_name : string) : bool :=
  let manager_role := table_get (upper manager_name) "bot" BOT_ROLES in
  let target_role := table_get (upper target_name) "bot" BOT_ROLES in
  table_get target_role 0 ROLE_HIERARCHY <? table_get manager_role 0 ROLE_HIERARCHY.

(** The hierarchy as the specification words it: five roles in a fixed
    total order, a rank for each, and a role for each name. *)
Inductive role : Type := supervisor | manager | worker | grunt | bot.

Definition rank (r : role) : Z :=
  match r with
  | supervisor => 4
  | manager => 3
  | worker => 2
  | grunt => 1
  | bot => 0
  end.

Definition spec_role_of (name : string) : role :=
  let n := upper name in
  if String.eqb n "BLACK" then supervisor
  else if String.eqb n "INTOLERANT" then worker
  else if String.eqb n "OLLAMA" then grunt
  else bot.

Definition role_name (r : role) : string :=
  match r with
  | supervisor => "supervisor"
  | manager => "manager"
  | worker => "worker"
  | grunt => "grunt"
  | bot => "bot"
  end.

Definition in_role_table (name : string) : Prop :=
  exists r, In (upper name, r) BOT_ROLES.

(** ** Local files *)

(** A JSON file on disk that exists: its text either fails [json.loads]
    ([Corrupt]) or parses to a value. *)
Inductive file : Type :=
| Corrupt
| Content (j : json).

(** What a path [BOT_BASE_PATH / name] can lead to when it exists: a
    directory, with its [settings.json] when it has one, or something that
    is not a directory (a file, such as the keystore). *)
Inductive folder : Type :=
| Directory (settings_json : option file)
| NotDirectory.

(** The file system as the settings store sees it.  The store joins a
    name onto [BOT_BASE_PATH] and leaves the rest to the platform: the
    joined path need not stay one level below the base folder, and several
    names lead to one place ([OLLAMA/] and [X/../OLLAMA] lead where
    [OLLAMA] does, the empty name and [.] to the base folder itself).
    [place n] is the location that [BOT_BASE_PATH / n] leads to, and
    [entries] tells what exists, by location.  A [settings.json] is kept
    with its directory and is not an entry of its own. *)
Record filesystem : Type := {
  place : string -> string;
  entries : gmap string folder
}.

(** [get_bot_folder]: the path is represented by the location it leads to. *)
Definition get_bot_folder (fs : filesystem) (bot_name : string) : option string :=
  let folder := place fs (upper bot_name) in
  match entries fs !! folder with
  | Some _ => Some folder
  | None => None
  end.

(** [settings_path.exists()] and [settings_path.read_text()] for
    [settings_path = folder / "settings.json"]; nothing exists below a
    path that is not a directory. *)
Definition settings_file (fs : filesystem) (folder : string) : option file :=
  match entries fs !! folder with
  | Some (Directory f) => f
  | Some NotDirectory => None
  | None => None
  end.

Definition get_bot_settings (fs : filesystem) (bot_name : string) : option json :=
  match get_bot_folder fs bot_name with
  | None => None
  | Some folder =>
      match settings_file fs folder with
      | None => None
      | Some Corrupt => None
      | Some (Content j) => Some j
      end
  end.

(** One round of the merge loop of [set_bot_settings]. *)
Definition merge_item (existing : json) (key : string) (value : json) : outcome json :=
  match value with
  | JDict v =>
      obind (py_in key existing) (fun present =>
        if present then
          obind (py_getitem existing key) (fun old =>
            match old with
            | JDict o => py_setitem existing key (JDict (dict_update o v))
            | _ => py_setitem existing key value
            end)
        else py_setitem existing key value)
  | _ => py_setitem existing key value
  end.

(** [for key, value in settings.items(): ...], the items of the patch in
    the order the loop visits them *)
Fixpoint merge_settings (existing : json) (settings : list (string * json))
    : outcome json :=
  match settings with
  | [] => Return existing
  | (key, value) :: rest =>
      obind (merge_item existing key value) (fun existing' =>
        merge_settings existing' rest)
  end.

(** [settings_path.write_text(json.dumps(j, indent=2))]: it raises when
    [folder] is not a directory; in a directory the write itself is taken
    to succeed. *)
Definition write_settings (fs : filesystem) (folder : string) (j : json)
    : option filesystem :=
  match entries fs !! folder with
  | Some (Directory _) =>
      Some {| place := place fs;
              entries := <[folder := Directory (Some (Content j))]> (entries fs) |}
  | Some NotDirectory => None
  | None => None
  end.

Definition set_bot_settings (fs : filesystem) (bot_name : string)
    (settings : list (string * json)) (manager_name : option string)
    : bool * filesystem :=
  if truthy_str manager_name &&
     negb (can_manage_bot (default "" manager_name) bot_name)
  then (false, fs)
  else
    match get_bot_folder fs bot_name with
    | None => (false, fs)
    | Some folder =>
        (* try: *)
        let loaded :=
          match settings_file fs folder with
          | None => Some (JDict ∅)
          | Some (Content j) => Some j
          | Some Corrupt => None          (* json.loads raises *)
          end in
        match loaded with
        | None => (false, fs)
        | Some existing =>
            match merge_settings existing settings with
            | Return merged =>
                match write_settings fs folder merged with
                | Some fs' => (true, fs')
                | None => (false, fs)     (* except Exception *)
                end
            | Raise _ => (false, fs)      (* except Exception *)
            end
        end
    end.

Definition set_bot_todos (fs : filesystem) (bot_name : string) (todos : list json)
    (manager_name : option string) : bool * filesystem :=
  set_bot_settings fs bot_name [("startup_todos", JList todos)] manager_name.

(** [settings.get('rules', [])]; [settings] is whatever the file held. *)
Definition get_rules (settings : json) : outcome json :=
  match settings with
  | JDict d => Return (default (JList []) (dict_get "rules" d))
  | _ => Raise AttributeError
  end.

(** [rules.append(rule)] *)
Definition py_append (rules : json) (rule : string) : outcome json :=
  match rules with
  | JList l => Return (JList (l ++ [JStr rule]))
  | _ => Raise AttributeError
  end.

Definition add_bot_rule (fs : filesystem) (bot_name rule : string)
    (manager_name : option string) : outcome bool * filesystem :=
  let settings :=
    match get_bot_settings fs bot_name with
    | Some j => if truthy j then j else JDict ∅
    | None => JDict ∅
    end in
  let rules' :=
    obind (get_rules settings) (fun rules =>
      obind (py_in rule rules) (fun present =>
        if negb present then py_append rules rule else Return rules)) in
  match rules' with
  | Raise e => (Raise e, fs)
  | Return rules =>
      let '(ok, fs') := set_bot_settings fs bot_name [("rules", rules)] manager_name in
      (Return ok, fs')
  end.

(** The hierarchy check of [set_bot_settings] refuses the write. *)
Definition denied (manager_name : option string) (bot_name : string) : bool :=
  truthy_str manager_name &&
  negb (can_manage_bot (default "" manager_name) bot_name).

(** [rule] is an entry of the [rules] array of the bot's stored document. *)
Definition rule_present (fs : filesystem) (bot_name rule : string) : bool :=
  match get_bot_settings fs bot_name with
  | Some (JDict d) =>
      match dict_get "rules" d with
      | Some (JList l) => existsb (str_eq_json rule) l
      | _ => false
      end
  | _ => false
  end.

(** The keystore file at [KEYSTORE_PATH]: absent, unreadable as a JSON
    object, or a mapping from names to keys. *)
Inductive keystore_file : Type :=
| KeystoreMissing
| KeystoreCorrupt
| Keystore (keys : gmap string string).

Definition vend_key (ks : keystore_file) (name : string) : option string :=
  match ks with
  | KeystoreMissing => None
  | KeystoreCorrupt => None               (* except Exception *)
  | Keystore keys => keys !! upper name
  end.

(** ** The backend and the process environment *)

(** The outcome of one HTTP call: [requests] raised, or a response with a
    status code and a body; the body is [None] when [resp.json()] raises. *)
Inductive response (A : Type) : Type :=
| TransportError
| Http (status_code : Z) (body : option A).
Arguments TransportError {A}.
Arguments Http {A} status_code body.

(** [d.get(k)] with Python's [None] for a missing key *)
Definition row_get (k : string) (d : jdict) : json := default JNull (d !! k).

(** The characters of a [str], each as a [str] of its own (ASCII text). *)
Definition chars (s : string) : list json :=
  map (fun c => JStr (String c EmptyString)) (list_ascii_of_string s).

(** The keys of a dict, as iterating over it yields them.  Python yields
    them in the order of insertion, which the map does not record; the
    model lists them in the order of the map. *)
Definition keys (d : jdict) : list json :=
  map (fun kv => JStr (fst kv)) (map_to_list d).

(** [list(x)], the elements that a [for] loop over [x] visits *)
Definition py_iter (x : json) : outcome (list json) :=
  match x with
  | JList l => Return l
  | JStr s => Return (chars s)
  | JDict d => Return (keys d)
  | JNull | JBool _ | JNum _ => Raise TypeError
  end.

(** [list(reversed(x))]; a dict is reversible (Python 3.8). *)
Definition py_reversed (x : json) : outcome (list json) :=
  match x with
  | JList l => Return (rev l)
  | JStr s => Return (rev (chars s))
  | JDict d => Return (rev (keys d))
  | JNull | JBool _ | JNum _ => Raise TypeError
  end.

(** [data[0]] for a truthy [data], else [None], under a [try] whose
    handler gives [None] (the shape of [_validate_key] and of
    [get_my_instance]): the first element of a non-empty list, the first
    character of a non-empty string.  A dict has no key [0] ([KeyError])
    and a number neither a length nor an index ([TypeError]): the handler
    turns both into [None], which is JSON's null. *)
Definition first_item (data : json) : json :=
  match data with
  | JList (x :: _) => x
  | JStr (String c _) => JStr (String c EmptyString)
  | _ => JNull
  end.

(** The HTTP requests the client issues, with the parameters it sends. *)
Inductive request : Type :=
| ValidateApiKey (p_key : option string)
| GetChat (p_api_key : option string) (p_project_slug : string) (p_limit : Z)
| GetSharedTasks (team_id : string) (status : option string)
| PostHeartbeat (p_api_key : option string) (p_status p_project : string)
| GetClaudeInstances (name team_id : string)
| PatchClaudeInstances (id : json) (working_on : option string).

(** Everything the client reads from outside: [os.environ], the keystore
    file, and the backend's answer to each request.  A body is whatever
    [resp.json()] decodes: the client does not check its shape. *)
Record World : Type := {
  environ : string -> option string;
  keystore : keystore_file;
  validate_api_key : option string -> response json;
  rpc_get_chat : option string -> string -> Z -> response json;
  shared_tasks : string -> option string -> response json;
  rpc_heartbeat : option string -> string -> string -> response json;
  claude_instances : string -> string -> response json;
  patch_claude_instances : json -> option string -> response json
}.

(** ** The session object *)

(** The fields of [ClaudeColab] that the modelled methods touch.  The
    three identity fields hold what the validation row holds under their
    keys, [None] (null) before that. *)
Record ClaudeColab : Type := {
  api_key : option string;
  team_id : json;
  user_id : json;
  claude_name : json;
  project_slug : string;
  connected : bool
}.

(** [ClaudeColab.__init__] *)
Definition init : ClaudeColab :=
  {| api_key := None; team_id := JNull; user_id := JNull; claude_name := JNull;
     project_slug := "claude-colab"; connected := false |}.

Definition set_api_key (k : option string) (c : ClaudeColab) : ClaudeColab :=
  {| api_key := k; team_id := team_id c; user_id := user_id c;
     claude_name := claude_name c; project_slug := project_slug c;
     connected := connected c |}.

(** The four assignments of a successful [connect]. *)
Definition set_identity (r : jdict) (c : ClaudeColab) : ClaudeColab :=
  {| api_key := api_key c; team_id := row_get "team_id" r;
     user_id := row_get "user_id" r; claude_name := row_get "claude_name" r;
     project_slug := project_slug c; connected := true |}.

(** The object together with the requests issued so far, oldest first. *)
Record state : Type := { self : ClaudeColab; requests : list request }.

(** Methods: state-passing computations that return or raise. *)
Definition M (A : Type) : Type := state -> outcome A * state.

Definition ret {A} (a : A) : M A := fun s => (Return a, s).

Definition bind {A B} (c : M A) (k : A -> M B) : M B :=
  fun s =>
    match c s with
    | (Return a, s') => k a s'
    | (Raise e, s') => (Raise e, s')
    end.

Definition raise {A} (e : exn) : M A := fun s => (Raise e, s).

Definition lift {A} (o : outcome A) : M A := fun s => (o, s).

Definition gets {A} (f : ClaudeColab -> A) : M A :=
  fun s => (Return (f (self s)), s).

Definition modify (f : ClaudeColab -> ClaudeColab) : M unit :=
  fun s => (Return tt, {| self := f (self s); requests := requests s |}).

Definition issue (r : request) : M unit :=
  fun s => (Return tt, {| self := self s; requests := requests s ++ [r] |}).

Declare Scope colab_scope.
Delimit Scope colab_scope with colab.
Notation "x <- c ;; k" := (bind c (fun x => k))
  (at level 100, c at next level, right associativity) : colab_scope.
Notation "c ;; k" := (bind c (fun _ => k))
  (at level 100, right associativity) : colab_scope.
Local Open Scope colab_scope.

(** [when b: c] *)
Definition when (b : bool) (c : M unit) : M unit := if b then c else ret tt.

(** [[x for x in l if p(x)]] over rows of which [p] calls [.get]: a row
    that is not a dict has no such method.  The rows kept are dicts. *)
Fixpoint filter_rows (p : jdict -> outcome bool) (l : list json)
    : outcome (list jdict) :=
  match l with
  | [] => Return []
  | JDict d :: l' =>
      obind (p d) (fun keep =>
        obind (filter_rows p l') (fun rest =>
          Return (if keep then d :: rest else rest)))
  | _ :: _ => Raise AttributeError
  end.

(** [repr(s)] of a [str] (ASCII text): single quotes unless the text
    holds a single quote and no double quote; the backslash, the quote in
    use and the control characters are escaped. *)
Definition double_quote : ascii := ascii_of_nat 34.

Fixpoint has_char (c : ascii) (s : string) : bool :=
  match s with
  | EmptyString => false
  | String c' s' => Ascii.eqb c c' || has_char c s'
  end.

Definition hex_digit (n : nat) : ascii :=
  match String.get n "0123456789abcdef" with
  | Some c => c
  | None => "0"%char
  end.

Definition repr_char (quote c : ascii) : string :=
  let n := nat_of_ascii c in
  if Ascii.eqb c "\" then "\\"
  else if Ascii.eqb c quote then String "\" (String c EmptyString)
  else if (n =? 9)%nat then "\t"
  else if (n =? 10)%nat then "\n"
  else if (n =? 13)%nat then "\r"
  else if (n <? 32)%nat || (n =? 127)%nat then
    String "\" (String "x" (String (hex_digit (n / 16))
                               (String (hex_digit (n mod 16)) EmptyString)))
  else String c EmptyString.

Definition repr_str (s : string) : string :=
  let quote :=
    if has_char "'" s && negb (has_char double_quote s) then double_quote
    else "'"%char in
  String quote
    (String.concat "" (map (repr_char quote) (list_ascii_of_string s))
     ++ String quote EmptyString).

(** [repr(x)]; the items of a dict are listed in the order of the map. *)
Fixpoint py_repr (x : json) : string :=
  match x with
  | JNull => "None"
  | JBool b => if b then "True" else "False"
  | JNum n => NilZero.string_of_int (Z.to_int n)
  | JStr s => repr_str s
  | JList l => "[" ++ String.concat ", " (map py_repr l) ++ "]"
  | JDict d =>
      "{" ++ String.concat ", "
               (map_fold
                  (fun k v acc =>
                     app acc [(repr_str k ++ ": " ++ py_repr v)%string])
                  [] d) ++ "}"
  end.

(** [str(x)], as an f-string renders [x] *)
Definition fmt (x : json) : string :=
  match x with
  | JStr s => s
  | _ => py_repr x
  end.

(** [j == True] *)
Definition eq_True (j : json) : bool :=
  match j with
  | JBool b => b
  | JNum n => n =? 1
  | _ => false
  end.

(** [x == y] on hashable JSON values; [True == 1] and [False == 0]. *)
Definition scalar_eqb (x y : json) : bool :=
  match x, y with
  | JNull, JNull => true
  | JBool a, JBool b => eqb a b
  | JBool a, JNum n | JNum n, JBool a => n =? (if a then 1 else 0)
  | JNum n, JNum m => n =? m
  | JStr a, JStr b => String.eqb a b
  | _, _ => false
  end.

(** [x == y]: lists are equal element by element, dicts key by key. *)
Fixpoint py_eq (x y : json) : bool :=
  match x, y with
  | JList l, JList l' =>
      (fix all2 (l l' : list json) : bool :=
         match l, l' with
         | [], [] => true
         | a :: l, b :: l' => py_eq a b && all2 l l'
         | _, _ => false
         end) l l'
  | JDict d, JDict d' =>
      Nat.eqb (size d) (size d') &&
      map_fold (fun k v acc =>
                  acc && match d' !! k with
                         | Some v' => py_eq v v'
                         | None => false
                         end) true d
  | _, _ => scalar_eqb x y
  end.

(** [hash(j)] raises on lists and dicts. *)
Definition hashable (j : json) : bool :=
  match j with
  | JList _ | JDict _ => false
  | _ => true
  end.

(** [set(...)] built left to right, then [list(...)]: the distinct
    elements.  Python leaves the order of the resulting list unspecified;
    the model lists them by first occurrence. *)
Fixpoint py_set (acc : list json) (l : list json) : outcome (list json) :=
  match l with
  | [] => Return acc
  | x :: l' =>
      if hashable x then
        py_set (if existsb (scalar_eqb x) acc then acc else acc ++ [x]) l'
      else Raise TypeError
  end.

(** [repr] of a list of [str] none of which holds a quote, a backslash or
    a control character (true of every blocker the gate builds). *)
Definition repr_str_list (l : list string) : string :=
  "[" ++ String.concat ", " (map (fun s => "'" ++ s ++ "'") l) ++ "]".

(** The message of the [RuntimeError] of a hard checkpoint. *)
Definition hard_failure_message (name : string) (blockers : list string) : string :=
  "Hard checkpoint '" ++ name ++ "' failed: " ++ repr_str_list blockers.

(** An exception carries the blocker list as data when the list itself,
    not its rendering, is one of its arguments. *)
Definition carries_blockers (e : exn) (blockers : list string) : Prop :=
  match e with
  | RuntimeError args => In (JList (map JStr blockers)) args
  | _ => False
  end.

(** First hit wins: the first credential source that holds a non-empty key. *)
Fixpoint first_hit (sources : list (option string)) : option string :=
  match sources with
  | [] => None
  | o :: rest => if truthy_str o then o else first_hit rest
  end.

(** [try: c  except Exception: pass], telling whether [c] completed *)
Definition attempt {A} (c : M A) : M (option A) :=
  fun s =>
    match c s with
    | (Return a, s') => (Return (Some a), s')
    | (Raise _, s') => (Return None, s')
    end.

(** What [checkpoint] returns. *)
Record checkpoint_result : Type := {
  passed : bool;
  mentions : nat;
  tasks : nat;
  blockers : list string
}.

(** What [heartbeat] returns. *)
Record heartbeat_result : Type := {
  ok : bool;
  hb_mentions : nat;
  mention_projects : list json
}.

(** [t.get('assigned_to') == self.claude_name] *)
Definition assigned_to_me (me : json) (t : jdict) : bool :=
  py_eq (row_get "assigned_to" t) me.

(** [[t for t in (tasks or []) if t.get('assigned_to') == me]] *)
Definition my_pending (me : json) (tasks : json) : outcome (list jdict) :=
  obind (py_iter (if truthy tasks then tasks else JList []))
    (filter_rows (fun t => Return (assigned_to_me me t))).

(** [m.get("id") == since_id] *)
Definition has_id (since_id : string) (m : jdict) : bool :=
  match dict_get "id" m with
  | Some v => str_eq_json since_id v
  | None => false
  end.

(** The loop of [has_new_mentions]: collect until the first message whose
    id is [since_id], then [break]. *)
Fixpoint collect_until (since_id : string) (mentions : list jdict) : list jdict :=
  match mentions with
  | [] => []
  | m :: rest => if has_id since_id m then [] else m :: collect_until since_id rest
  end.

(** [m.get("project_slug") for m in mentions if m.get("project_slug")] *)
Definition project_slugs (mentions : list jdict) : list json :=
  flat_map (fun m =>
    match dict_get "project_slug" m with
    | Some v => if truthy v then [v] else []
    | None => []
    end) mentions.

(** [working_on[:200] if working_on else None] *)
Definition truncate_working_on (working_on : string) : option string :=
  if String.eqb working_on "" then None
  else Some (String.substring 0 200 working_on).

Section Client.
Context (w : World).

(** [_validate_key]: [data[0]] when the answer is 200 and [data] is
    truthy, and [None] (null) otherwise; nothing escapes its [try]. *)
Definition _validate_key : M json :=
  k <- gets api_key ;;
  issue (ValidateApiKey k) ;;
  match validate_api_key w k with
  | Http status (Some data) =>
      if status =? 200 then ret (first_item data) else ret JNull
  | Http _ None => ret JNull       (* not 200, or resp.json() raises *)
  | TransportError => ret JNull    (* except Exception *)
  end.

Definition connect (key name : option string) : M bool :=
  (if truthy_str key then modify (set_api_key key)
   else
     when (truthy_str name)
       (modify (set_api_key
          (environ w ("CLAUDE_COLAB_KEY_" ++ upper (default "" name))))) ;;
     k <- gets api_key ;;
     when (negb (truthy_str k))
       (modify (set_api_key (environ w "CLAUDE_COLAB_KEY"))) ;;
     k <- gets api_key ;;
     when (negb (truthy_str k) && truthy_str name)
       (modify (set_api_key (vend_key (keystore w) (default "" name))))) ;;
  k <- gets api_key ;;
  if negb (truthy_str k) then ret false
  else
    result <- _validate_key ;;
    if truthy result then
      match result with
      | JDict r => modify (set_identity r) ;; ret true
      | _ => raise AttributeError    (* result.get, outside any try *)
      end
    else ret false.

Definition _ensure_connected : M bool :=
  c <- gets connected ;;
  if negb c then connect None None else ret true.

(** [get_tasks] returns the decoded body as it is. *)
Definition get_tasks (status : option string) : M json :=
  c <- _ensure_connected ;;
  if negb c then ret (JList [])
  else
    t <- gets team_id ;;
    let team := "eq." ++ fmt t in
    let st := if truthy_str status then Some ("eq." ++ default "" status) else None in
    issue (GetSharedTasks team st) ;;
    match shared_tasks w team st with
    | Http code (Some data) => if code =? 200 then ret data else ret (JList [])
    | Http _ None => ret (JList [])
    | TransportError => ret (JList [])
    end.

Definition get_chat (limit : Z) : M (list json) :=
  c <- _ensure_connected ;;
  if negb c then ret []
  else
    k <- gets api_key ;;
    p <- gets project_slug ;;
    issue (GetChat k p limit) ;;
    match rpc_get_chat w k p limit with
    | Http code (Some data) =>
        if code =? 200 then
          match py_reversed data with
          | Return chat => ret chat
          | Raise _ => ret []            (* except Exception *)
          end
        else ret []
    | Http _ None => ret []
    | TransportError => ret []
    end.

Definition get_mentions (limit : Z) : M (list jdict) :=
  c <- _ensure_connected ;;
  if negb c then ret []
  else
    chat <- get_chat limit ;;
    me <- gets claude_name ;;
    let mention_tag := "@" ++ fmt me in
    lift (filter_rows
            (fun m => py_in mention_tag (default (JStr "") (dict_get "message" m)))
            chat).

Definition has_new_mentions (since_id : option string) : M (list jdict) :=
  mentions <- get_mentions 20 ;;
  if negb (truthy_str since_id) then ret mentions
  else ret (collect_until (default "" since_id) mentions).

(** [get_my_instance]: [data[0] if data else None] on a 200 answer, and
    [None] (null) otherwise. *)
Definition get_my_instance : M json :=
  c <- _ensure_connected ;;
  if negb c then ret JNull
  else
    n <- gets claude_name ;;
    t <- gets team_id ;;
    let name := "eq." ++ fmt n in
    let team := "eq." ++ fmt t in
    issue (GetClaudeInstances name team) ;;
    match claude_instances w name team with
    | Http code (Some data) =>
        if code =? 200 then ret (first_item data) else ret JNull
    | Http _ None => ret JNull
    | TransportError => ret JNull
    end.

(** [_update_working_on]: the whole body is one [try] whose handler
    returns [False]. *)
Definition _update_working_on (working_on : string) : M bool :=
  found <- attempt get_my_instance ;;
  match found with
  | None => ret false                     (* except Exception *)
  | Some instance =>
      if negb (truthy instance) then ret false
      else
        match instance with
        | JDict i =>
            let instance_id := row_get "id" i in
            if negb (truthy instance_id) then ret false
            else
              let body := truncate_working_on working_on in
              issue (PatchClaudeInstances instance_id body) ;;
              match patch_claude_instances w instance_id body with
              | Http code _ => ret ((code =? 200) || (code =? 204))
              | TransportError => ret false
              end
        | _ => ret false                  (* instance.get raises *)
        end
  end.

Definition heartbeat (status : string) (working_on : option string)
    (check_mentions : bool) : M heartbeat_result :=
  let result := {| ok := false; hb_mentions := 0; mention_projects := [] |} in
  c <- _ensure_connected ;;
  if negb c then ret result
  else
    k <- gets api_key ;;
    p <- gets project_slug ;;
    issue (PostHeartbeat k status p) ;;
    result <-
      match rpc_heartbeat w k status p with
      | TransportError => ret result            (* except: ok stays False *)
      | Http code body =>
          if code =? 200 then
            match body with
            | None => ret result                (* resp.json() raises *)
            | Some j =>
                let result := {| ok := eq_True j; hb_mentions := 0;
                                 mention_projects := [] |} in
                match working_on with
                | Some wo => when (ok result) (_update_working_on wo ;; ret tt)
                | None => ret tt
                end ;;
                ret result
            end
          else ret result
      end ;;
    if check_mentions then
      found <- attempt (get_mentions 20) ;;
      match found with
      | None => ret result                      (* except: pass *)
      | Some [] => ret result
      | Some ms =>
          let result := {| ok := ok result; hb_mentions := length ms;
                           mention_projects := mention_projects result |} in
          match py_set [] (project_slugs ms) with
          | Raise _ => ret result               (* except: pass *)
          | Return projects =>
              ret {| ok := ok result; hb_mentions := hb_mentions result;
                     mention_projects := projects |}
          end
      end
    else ret result.

Definition checkpoint (name : string) (hard check_mentions check_tasks : bool)
    : M checkpoint_result :=
  let result := {| passed := true; mentions := 0; tasks := 0; blockers := [] |} in
  c <- _ensure_connected ;;
  if negb c then
    ret {| passed := false; mentions := 0; tasks := 0;
           blockers := ["Not connected"] |}
  else
    result <-
      (if check_mentions then
         ms <- get_mentions 20 ;;
         match ms with
         | [] => ret result
         | _ =>
             ret {| passed := false; mentions := length ms; tasks := tasks result;
                    blockers := blockers result ++
                                [str_of_nat (length ms) ++ " unread mentions"] |}
         end
       else ret result) ;;
    result <-
      (if check_tasks then
         ts <- get_tasks (Some "pending") ;;
         me <- gets claude_name ;;
         my_tasks <- lift (my_pending me ts) ;;
         match my_tasks with
         | [] => ret result
         | _ =>
             ret {| passed := false; mentions := mentions result;
                    tasks := length my_tasks;
                    blockers := blockers result ++
                                [str_of_nat (length my_tasks) ++ " pending tasks"] |}
         end
       else ret result) ;;
    if negb (passed result) then
      if hard then
        raise (RuntimeError
                 [JStr (hard_failure_message name (blockers result))])
      else ret result
    else ret result.

End Client.

(** ** Auxiliary descriptions used in the statements *)

(** The state after one more request. *)
Definition logged (r : request) (s : state) : state :=
  {| self := self s; requests := requests s ++ [r] |}.

(** What [_validate_key] yields for key [k]. *)
Definition validated (w : World) (k : option string) : json :=
  match validate_api_key w k with
  | Http code (Some data) => if code =? 200 then first_item data else JNull
  | _ => JNull
  end.

(** The validation call for [k] yields a non-empty row. *)
Definition accepted (w : World) (k : option string) : option jdict :=
  match validated w k with
  | JDict r => if truthy (JDict r) then Some r else None
  | _ => None
  end.

(** The validation call for [k] yields a truthy value that is not a row. *)
Definition malformed (w : World) (k : option string) : bool :=
  match validated w k with
  | JDict _ => false
  | x => truthy x
  end.

(** The credential sources of [connect], in the order the specification
    lists them. *)
Definition key_sources (w : World) (key : option string) (name : string)
    : list (option string) :=
  [ key;
    environ w ("CLAUDE_COLAB_KEY_" ++ upper name);
    environ w "CLAUDE_COLAB_KEY";
    vend_key (keystore w) name ].

(** The sources [connect] falls through in a call: with a name, the four
    of the specification; without one, the explicit argument, the key the
    object already holds and the generic variable. *)
Definition sources_tried (w : World) (key name : option string) (c : ClaudeColab)
    : list (option string) :=
  if truthy_str name then key_sources w key (default "" name)
  else [ key; api_key c; environ w "CLAUDE_COLAB_KEY" ].

(** The object after the key-resolution block of [connect]. *)
Definition resolve (w : World) (key name : option string) (c : ClaudeColab)
    : ClaudeColab :=
  if truthy_str key then set_api_key key c
  else
    let c1 :=
      if truthy_str name
      then set_api_key (environ w ("CLAUDE_COLAB_KEY_" ++ upper (default "" name))) c
      else c in
    let c2 :=
      if negb (truthy_str (api_key c1))
      then set_api_key (environ w "CLAUDE_COLAB_KEY") c1
      else c1 in
    if negb (truthy_str (api_key c2)) && truthy_str name
    then set_api_key (vend_key (keystore w) (default "" name)) c2
    else c2.

(** The chat fetch of [get_chat] failed: transport error or a status
    other than 200. *)
Definition fetch_failed {A} (r : response A) : bool :=
  match r with
  | TransportError => true
  | Http code _ => negb (code =? 200)
  end.

(** The mention check of [checkpoint], when enabled. *)
Definition mention_check (w : World) (check_mentions : bool) : M (list jdict) :=
  if check_mentions then get_mentions w 20 else ret [].

(** The task check of [checkpoint], when enabled: the pending tasks
    assigned to the current identity. *)
Definition task_check (w : World) (check_tasks : bool) : M (list jdict) :=
  if check_tasks then
    ts <- get_tasks w (Some "pending") ;;
    me <- gets claude_name ;;
    lift (my_pending me ts)
  else ret [].

(** The blocker entry a non-empty finding contributes. *)
Definition blocker (what : string) (found : list jdict) : list string :=
  match found with
  | [] => []
  | _ => [str_of_nat (length found) ++ what]
  end.

(** The gate's result for the mentions and tasks found. *)
Definition gate_result (ms my : list jdict) : checkpoint_result :=
  {| passed := Nat.eqb (length ms) 0 && Nat.eqb (length my) 0;
     mentions := length ms;
     tasks := length my;
     blockers := blocker " unread mentions" ms ++ blocker " pending tasks" my |}.

(** How [checkpoint] reports a result: returned, or raised when hard. *)
Definition report (name : string) (hard : bool) (r : checkpoint_result)
    : outcome checkpoint_result :=
  if passed r || negb hard then Return r
  else Raise (RuntimeError [JStr (hard_failure_message name (blockers r))]).

(** What [get_chat] returns on a connected session: the backend's answer,
    oldest first, or nothing when the fetch fails. *)
Definition chat_view (w : World) (limit : Z) (c : ClaudeColab) : list json :=
  match rpc_get_chat w (api_key c) (project_slug c) limit with
  | Http code (Some data) =>
      if code =? 200 then
        match py_reversed data with
        | Return chat => chat
        | Raise _ => []
        end
      else []
  | _ => []
  end.

(** The filter of [get_mentions] on one message. *)
Definition is_mention (c : ClaudeColab) (m : jdict) : outcome bool :=
  py_in ("@" ++ fmt (claude_name c)) (default (JStr "") (dict_get "message" m)).

(** What [get_tasks] returns on a connected session. *)
Definition tasks_view (w : World) (status : option string) (c : ClaudeColab)
    : json :=
  match shared_tasks w ("eq." ++ fmt (team_id c))
          (if truthy_str status then Some ("eq." ++ default "" status) else None) with
  | Http code (Some data) => if code =? 200 then data else JList []
  | _ => JList []
  end.

(** The [ok] field of a returned heartbeat result. *)
Definition ok_of (o : outcome heartbeat_result) : option bool :=
  match o with
  | Return r => Some (ok r)
  | Raise _ => None
  end.

(** ** Sample data used by the examples *)

(** A platform that drops one trailing separator from a name and leads
    the empty name to the base folder. *)
Fixpoint drop_separator (n : string) : string :=
  match n with
  | EmptyString => EmptyString
  | String c n' =>
      if String.eqb n' "/" then String c EmptyString
      else String c (drop_separator n')
  end.

Definition sample_place (n : string) : string :=
  if String.eqb n "" then "C:\claude" else "C:\claude\" ++ drop_separator n.

(** Two bot folders below the base folder, and the keystore file beside
    them: OLLAMA's document already lists the rule [r1]. *)
Definition sample_fs : filesystem :=
  {| place := sample_place;
     entries :=
       {[ "C:\claude" := Directory None;
          "C:\claude\OLLAMA" :=
            Directory (Some (Content (JDict {[ "rules" := JList [JStr "r1"] ]})));
          "C:\claude\BLACK" :=
            Directory (Some (Content (JDict {[ "model" := JStr "opus" ]})));
          "C:\claude\KEYSTORE.JSON" := NotDirectory ]} |}.

(** A JSON array of objects. *)
Definition rows (l : list jdict) : json := JList (map JDict l).

Definition black_row : jdict :=
  {[ "team_id" := JStr "team-1"; "user_id" := JStr "user-1";
     "claude_name" := JStr "BLACK" ]}.

Definition message (id text : string) : jdict :=
  {[ "id" := JStr id; "message" := JStr text;
     "project_slug" := JStr "claude-colab" ]}.

(** The backend's answer to [get_chat], newest first: three mentions of BLACK. *)
Definition three_mentions : list jdict :=
  [ message "m3" "@BLACK third"; message "m2" "@BLACK second";
    message "m1" "@BLACK first" ].

Definition two_mentions : list jdict :=
  [ message "m2" "@BLACK second"; message "m1" "@BLACK first" ].

(** All four credential sources hold a different key. *)
Definition all_sources (v : string) : option string :=
  if String.eqb v "CLAUDE_COLAB_KEY_BLACK" then Some "cc_scoped"
  else if String.eqb v "CLAUDE_COLAB_KEY" then Some "cc_generic"
  else None.

Definition generic_only (v : string) : option string :=
  if String.eqb v "CLAUDE_COLAB_KEY" then Some "cc_generic" else None.

Definition no_variables (v : string) : option string := None.

Definition sample_keystore : keystore_file :=
  Keystore {[ "_comment" := "Claude Key Vending Machine";
              "BLACK" := "cc_vended" ]}.

(** A backend that accepts every key but ["cc_revoked"] as BLACK's. *)
Definition sample_world (env : string -> option string) (ks : keystore_file)
    (chat : response json) (pending : response json) : World :=
  {| environ := env;
     keystore := ks;
     validate_api_key := fun k =>
       if truthy_str k && negb (String.eqb (default "" k) "cc_revoked")
       then Http 200 (Some (rows [black_row])) else Http 200 (Some (JList []));
     rpc_get_chat := fun _ _ _ => chat;
     shared_tasks := fun _ _ => pending;
     rpc_heartbeat := fun _ _ _ => Http 200 (Some (JBool true));
     claude_instances := fun _ _ => Http 200 (Some (JList []));
     patch_claude_instances := fun _ _ => Http 204 None |}.

Definition fresh : state := {| self := init; requests := [] |}.

(** BLACK's session after a successful [connect]. *)
Definition black_session : state :=
  {| self := {| api_key := Some "cc_key"; team_id := JStr "team-1";
                user_id := JStr "user-1"; claude_name := JStr "BLACK";
                project_slug := "claude-colab"; connected := true |};
     requests := [] |}.

(** A session that is not connected and holds a key from an earlier call. *)
Definition held_session : state :=
  {| self := set_api_key (Some "cc_held") init; requests := [] |}.

(** A backend whose validation answers 200 with an array of one string. *)
Definition malformed_world : World :=
  {| environ := no_variables;
     keystore := KeystoreMissing;
     validate_api_key := fun _ => Http 200 (Some (JList [JStr "x"]));
     rpc_get_chat := fun _ _ _ => TransportError;
     shared_tasks := fun _ _ => TransportError;
     rpc_heartbeat := fun _ _ _ => TransportError;
     claude_instances := fun _ _ => TransportError;
     patch_claude_instances := fun _ _ => TransportError |}.

(** One pending task assigned to BLACK. *)
Definition one_task : list jdict :=
  [ {[ "id" := JStr "t1"; "status" := JStr "pending";
       "assigned_to" := JStr "BLACK" ]} ].

(** A chat row whose text is null: the filter of [get_mentions] raises on it. *)
Definition null_message : jdict := {[ "id" := JStr "m9"; "message" := JNull ]}.

(** The backend holds three mentions of BLACK. *)
Definition chatty_world : World :=
  sample_world no_variables KeystoreMissing (Http 200 (Some (rows three_mentions)))
    TransportError.

(** ** The keystore writer and further descriptions *)

(** What one item of a patch makes of the value stored under its key:
    a dict is merged into a dict, anything else takes the place of the
    old value. *)
Definition merged_value (old : option json) (value : json) : json :=
  match value, old with
  | JDict v, Some (JDict o) => JDict (dict_update o v)
  | _, _ => value
  end.

(** The merge loop of [set_bot_settings] on a document that is a dict. *)
Definition merge_dict (d : jdict) (settings : list (string * json)) : jdict :=
  fold_left (fun acc kv => <[fst kv := merged_value (acc !! fst kv) (snd kv)]> acc)
    settings d.

(** [settings.get(k)] for a patch given by its items *)
Fixpoint patch_get (k : string) (settings : list (string * json)) : option json :=
  match settings with
  | [] => None
  | (k', v) :: rest => if String.eqb k k' then Some v else patch_get k rest
  end.

(** The document a write starts from: the stored one, or [{}] when the
    folder has no [settings.json]. *)
Definition stored_document (fs : filesystem) (bot_name : string) : option json :=
  match settings_file fs (place fs (upper bot_name)) with
  | None => Some (JDict ∅)
  | Some (Content j) => Some j
  | Some Corrupt => None
  end.

(** The path of the bot's folder leads to a directory. *)
Definition has_directory (fs : filesystem) (bot_name : string) : bool :=
  match entries fs !! place fs (upper bot_name) with
  | Some (Directory _) => true
  | _ => false
  end.

(** The validation of the requester in [stock_key]: a 200 response with a
    truthy body. *)
Definition requester_valid (w : World) (requester_key : option string) : bool :=
  match validate_api_key w requester_key with
  | Http code (Some data) =>
      (code =? 200) && truthy data
  | Http _ None => false                  (* not 200, or resp.json() raises *)
  | TransportError => false               (* except Exception *)
  end.

(** [stock_key]: [now] is the clock's [strftime("%Y-%m-%d %H:%M")], [ks]
    the keystore file, which the function may rewrite. *)
Definition stock_key (w : World) (now : string) (ks : keystore_file)
    (name key : string) (requester_key : option string) : bool * keystore_file :=
  if truthy_str requester_key && negb (requester_valid w requester_key)
  then (false, ks)
  else
    match ks with
    | KeystoreCorrupt => (false, ks)      (* json.loads raises *)
    | KeystoreMissing =>
        (true,
         Keystore (<[upper name := key]>
                     (<["_updated" := now]>
                        {[ "_comment" :=
                             "Claude Key Vending Machine - DO NOT commit to git";
                           "_updated" := "" ]})))
    | Keystore keys =>
        (true, Keystore (<[upper name := key]> (<["_updated" := now]> keys)))
    end.

(** The world after the keystore file has been rewritten. *)
Definition with_keystore (ks : keystore_file) (w : World) : World :=
  {| environ := environ w;
     keystore := ks;
     validate_api_key := validate_api_key w;
     rpc_get_chat := rpc_get_chat w;
     shared_tasks := shared_tasks w;
     rpc_heartbeat := rpc_heartbeat w;
     claude_instances := claude_instances w;
     patch_claude_instances := patch_claude_instances w |}.

(** [help_buddy]: the method stocks the buddy's key with the session's own
    key as requester; the validation request of [stock_key] is recorded
    with the session's. *)
Definition help_buddy (w : World) (now : string) (buddy_name buddy_key : string)
    (s : state) : (outcome bool * state) * keystore_file :=
  match _ensure_connected w s with
  | (Return true, s1) =>
      let requester := api_key (self s1) in
      let '(stocked, ks) :=
        stock_key w now (keystore w) buddy_name buddy_key requester in
      ((Return stocked,
        if truthy_str requester then logged (ValidateApiKey requester) s1 else s1),
       ks)
  | (Return false, s1) => ((Return false, s1), keystore w)
  | (Raise e, s1) => ((Raise e, s1), keystore w)
  end.

(** [set_project] *)
Definition set_project (slug : string) : M unit :=
  modify (fun c =>
    {| api_key := api_key c; team_id := team_id c; user_id := user_id c;
       claude_name := claude_name c; project_slug := slug;
       connected := connected c |}).

(** The presence call of [heartbeat] succeeded: 200 with a body equal to
    [True]. *)
Definition presence_ok (r : response json) : bool :=
  match r with
  | Http code (Some j) => (code =? 200) && eq_True j
  | _ => false
  end.

(** The result [heartbeat] builds from the presence outcome and what the
    mention scan gave ([None] when it raised). *)
Definition fold_mentions (presence : bool) (found : option (list jdict))
    : heartbeat_result :=
  match found with
  | None | Some [] =>
      {| ok := presence; hb_mentions := 0; mention_projects := [] |}
  | Some ms =>
      {| ok := presence; hb_mentions := length ms;
         mention_projects :=
           match py_set [] (project_slugs ms) with
           | Return projects => projects
           | Raise _ => []
           end |}
  end.

(** The test of [get_mentions] on a row whose text lets it be made. *)
Definition mentions_me (c : ClaudeColab) (m : jdict) : bool :=
  match is_mention c m with
  | Return found => found
  | Raise _ => false
  end.

(** [resp.status_code in [200, 204]], and [False] when the request fails. *)
Definition patch_accepted (r : response json) : bool :=
  match r with
  | Http code _ => (code =? 200) || (code =? 204)
  | TransportError => false
  end.

(** A backend whose presence call fails while the chat still holds three
    mentions of BLACK, and which knows BLACK's instance row. *)
Definition presence_down_world : World :=
  {| environ := no_variables;
     keystore := KeystoreMissing;
     validate_api_key := validate_api_key chatty_world;
     rpc_get_chat := fun _ _ _ => Http 200 (Some (rows three_mentions));
     shared_tasks := fun _ _ => TransportError;
     rpc_heartbeat := fun _ _ _ => Http 500 None;
     claude_instances :=
       fun _ _ => Http 200 (Some (rows [ {[ "id" := JStr "i-1" ]} ]));
     patch_claude_instances := fun _ _ => Http 204 None |}.

(** A chat answer whose middle row is a string, not an object. *)
Definition chat_with_string : json :=
  JList [ JDict (message "m3" "@BLACK third"); JStr "oops";
          JDict (message "m1" "hello all") ].

(** * Properties *)

(** ** The model on small inputs *)

Example upper_black : upper "Black_7" = "BLACK_7".
Proof. reflexivity. Qed.

(** The mention test is a substring test: [@BLACK] is found in [@BLACKOUT]. *)
Example mention_is_substring :
  py_in "@BLACK" (JStr "ping @BLACKOUT now") = Return true /\
  py_in "@BLACK" (JStr "ping @black") = Return false /\
  py_in "@BLACK" JNull = Raise TypeError.
Proof. repeat split. Qed.

Example hard_failure_message_two :
  hard_failure_message "must_clear" ["2 unread mentions"; "1 pending tasks"]
  = "Hard checkpoint 'must_clear' failed: ['2 unread mentions', '1 pending tasks']".
Proof. reflexivity. Qed.

Example str_of_nat_12 : str_of_nat 12 = "12".
Proof. reflexivity. Qed.

(** The merge of [set_bot_settings]: a dict under an existing dict key is
    merged key by key, anything else replaces the old value. *)
Example merge_settings_nested :
  merge_settings
    (JDict {[ "limits" := JDict {[ "cpu" := JNum 1; "ram" := JNum 2 ]};
              "rules" := JList [JStr "r1"] ]})
    [ ("limits", JDict {[ "ram" := JNum 8 ]}); ("rules", JList [JStr "r2"]) ]
  = Return (JDict {[ "limits" := JDict {[ "cpu" := JNum 1; "ram" := JNum 8 ]};
                     "rules" := JList [JStr "r2"] ]}).
Proof. reflexivity. Qed.

(** A supervisor's patch goes through; the same patch without a folder,
    or onto a file that does not parse, changes nothing. *)
Example set_bot_settings_allowed :
  fst (set_bot_settings sample_fs "ollama" [("rules", JList [JStr "r2"])]
         (Some "BLACK")) = true /\
  get_bot_settings
    (snd (set_bot_settings sample_fs "ollama" [("rules", JList [JStr "r2"])]
            (Some "BLACK"))) "OLLAMA"
  = Some (JDict {[ "rules" := JList [JStr "r2"] ]}) /\
  set_bot_settings sample_fs "tkinter" [("rules", JList [])] None
  = (false, sample_fs) /\
  set_bot_settings
    {| place := sample_place;
       entries := {[ "C:\claude\OLLAMA" := Directory (Some Corrupt) ]} |}
    "ollama" [("rules", JList [])] None
  = (false,
     {| place := sample_place;
        entries := {[ "C:\claude\OLLAMA" := Directory (Some Corrupt) ]} |}).
Proof. repeat split. Qed.

(** Names are joined onto the base folder as they come: [ollama/] leads
    to OLLAMA's folder, the empty name to the base folder, and the name of
    the keystore to a file, which is no bot folder although it exists. *)
Example get_bot_folder_joins :
  get_bot_folder sample_fs "ollama/" = get_bot_folder sample_fs "OLLAMA" /\
  get_bot_folder sample_fs "" = Some "C:\claude" /\
  get_bot_folder sample_fs "keystore.json" = Some "C:\claude\KEYSTORE.JSON" /\
  get_bot_settings sample_fs "keystore.json" = None /\
  set_bot_settings sample_fs "keystore.json" [] None = (false, sample_fs) /\
  get_bot_folder sample_fs "tkinter" = None.
Proof. repeat split. Qed.

(** A first [connect] of BLACK with an explicit key. *)
Example connect_black :
  connect chatty_world (Some "cc_key") None fresh
  = (Return true,
     {| self := {| api_key := Some "cc_key"; team_id := JStr "team-1";
                   user_id := JStr "user-1"; claude_name := JStr "BLACK";
                   project_slug := "claude-colab"; connected := true |};
        requests := [ValidateApiKey (Some "cc_key")] |}).
Proof. reflexivity. Qed.

(** [get_chat] hands the backend's newest-first answer back oldest first. *)
Example get_chat_is_chronological :
  fst (get_chat chatty_world 20 black_session)
  = Return [ JDict (message "m1" "@BLACK first");
             JDict (message "m2" "@BLACK second");
             JDict (message "m3" "@BLACK third") ].
Proof. reflexivity. Qed.

(** A validation answer whose first element is not an object: [connect]
    raises where it reads the identity from it. *)
Example connect_malformed_row :
  fst (connect malformed_world (Some "cc_key") None fresh) = Raise AttributeError.
Proof. reflexivity. Qed.

(** What an f-string makes of the values a row can hold. *)
Example fmt_values :
  fmt (JStr "BLACK") = "BLACK" /\ fmt JNull = "None" /\
  fmt (JNum (-5)) = "-5" /\ fmt (JBool true) = "True" /\
  fmt (JList [JStr "a"; JNum 1]) = "['a', 1]".
Proof. repeat split. Qed.

(** ** Role hierarchy *)

Lemma bot_role_lookup (name : string) :
  table_get (upper name) "bot" BOT_ROLES = role_name (spec_role_of name).
Proof.
  unfold spec_role_of, BOT_ROLES; simpl.
  repeat (destruct (String.eqb (upper name) _); [reflexivity|]).
  reflexivity.
Qed.

Lemma rank_lookup (r : role) : table_get (role_name r) 0 ROLE_HIERARCHY = rank r.
Proof. destruct r; reflexivity. Qed.

Lemma can_manage_bot_ranks (m t : string) :
  can_manage_bot m t = (rank (spec_role_of t) <? rank (spec_role_of m)).
Proof.
  unfold can_manage_bot. now rewrite !bot_role_lookup, !rank_lookup.
Qed.

Lemma unknown_name_is_bot (name : string) :
  ~ in_role_table name -> spec_role_of name = bot.
Proof.
  intros Hout. unfold spec_role_of.
  destruct (String.eqb (upper name) "BLACK") eqn:E1.
  { apply String.eqb_eq in E1. exfalso. apply Hout. exists "supervisor".
    rewrite E1. simpl. auto. }
  destruct (String.eqb (upper name) "INTOLERANT") eqn:E2.
  { apply String.eqb_eq in E2. exfalso. apply Hout. exists "worker".
    rewrite E2. simpl. auto. }
  destruct (String.eqb (upper name) "OLLAMA") eqn:E3.
  { apply String.eqb_eq in E3. exfalso. apply Hout. exists "grunt".
    rewrite E3. simpl. auto. }
  reflexivity.
Qed.

(** C5: [can_manage_bot m t] holds exactly when the rank of [m]'s role is
    strictly greater than the rank of [t]'s role, the ranks being
    supervisor 4 > manager 3 > worker 2 > grunt 1 > bot 0 as the code's
    table stores them; equal ranks give false; a name outside the role
    table has role bot, rank 0, so it manages nobody and is managed by
    exactly the names of positive rank. *)
Theorem can_manage_bot_rank (m t : string) :
  (can_manage_bot m t = true <-> rank (spec_role_of m) > rank (spec_role_of t)) /\
  (rank (spec_role_of m) = rank (spec_role_of t) -> can_manage_bot m t = false) /\
  (~ in_role_table m ->
     table_get (upper m) "bot" BOT_ROLES = "bot" /\
     rank (spec_role_of m) = 0 /\
     can_manage_bot m t = false /\
     (can_manage_bot t m = true <-> rank (spec_role_of t) > 0)) /\
  (forall r, table_get (role_name r) 0 ROLE_HIERARCHY = rank r) /\
  rank supervisor > rank manager /\ rank manager > rank worker /\
  rank worker > rank grunt /\ rank grunt > rank bot /\ rank bot = 0.
Proof.
  rewrite can_manage_bot_ranks.
  split; [rewrite Z.ltb_lt; lia|].
  split; [intros ->; apply Z.ltb_irrefl|].
  split.
  - intros Hout. pose proof (unknown_name_is_bot m Hout) as Hm.
    rewrite bot_role_lookup, can_manage_bot_ranks, Hm. simpl.
    split; [reflexivity|]. split; [reflexivity|].
    split; [destruct (spec_role_of t); reflexivity|].
    rewrite Z.ltb_lt. lia.
  - split; [apply rank_lookup|]. simpl. lia.
Qed.

Example can_manage_bot_table :
  can_manage_bot "black" "INTOLERANT" = true /\
  can_manage_bot "INTOLERANT" "OLLAMA" = true /\
  can_manage_bot "OLLAMA" "TKINTER" = true /\
  can_manage_bot "OLLAMA" "stranger" = true /\
  can_manage_bot "TKINTER" "stranger" = false /\
  can_manage_bot "BLACK" "Black" = false /\
  can_manage_bot "OLLAMA" "BLACK" = false.
Proof. repeat split. Qed.

(** ** Settings store *)

Lemma write_settings_same (fs : filesystem) (f : string) (j : json) :
  settings_file fs f = Some (Content j) -> write_settings fs f j = Some fs.
Proof.
  unfold settings_file, write_settings.
  destruct (entries fs !! f) as [[c|]|] eqn:Hf; try discriminate.
  intros ->. destruct fs as [pl en]; simpl in *. now rewrite (insert_id en f _ Hf).
Qed.

Lemma settings_file_write (fs fs' : filesystem) (f : string) (j : json) :
  write_settings fs f j = Some fs' -> settings_file fs' f = Some (Content j).
Proof.
  unfold settings_file, write_settings.
  destruct (entries fs !! f) as [[c|]|]; try discriminate.
  intros [= <-]. simpl. now rewrite lookup_insert_eq.
Qed.

Lemma write_settings_place (fs fs' : filesystem) (f : string) (j : json) :
  write_settings fs f j = Some fs' ->
  place fs' = place fs /\
  entries fs' = <[f := Directory (Some (Content j))]> (entries fs) /\
  exists c, entries fs !! f = Some (Directory c).
Proof.
  unfold write_settings.
  destruct (entries fs !! f) as [[c|]|]; try discriminate.
  intros [= <-]. simpl. eauto.
Qed.

Lemma get_bot_folder_Some (fs : filesystem) (bot_name f : string) :
  get_bot_folder fs bot_name = Some f ->
  f = place fs (upper bot_name) /\ is_Some (entries fs !! f).
Proof.
  unfold get_bot_folder.
  destruct (entries fs !! place fs (upper bot_name)) eqn:E; [|discriminate].
  intros [= <-]. eauto.
Qed.

Lemma get_bot_folder_write (fs fs' : filesystem) (bot_name f : string) (j : json) :
  get_bot_folder fs bot_name = Some f ->
  write_settings fs f j = Some fs' ->
  get_bot_folder fs' bot_name = Some f.
Proof.
  intros H Hw. destruct (get_bot_folder_Some _ _ _ H) as [-> _].
  destruct (write_settings_place _ _ _ _ Hw) as [Hp [He _]].
  unfold get_bot_folder. rewrite Hp, He. now rewrite lookup_insert_eq.
Qed.

Lemma truthy_dict_with_key (d : jdict) (k : string) (v : json) :
  d !! k = Some v -> truthy (JDict d) = true.
Proof.
  intros H. simpl. destruct (size d) eqn:E; [|reflexivity].
  apply map_size_empty_inv in E. subst d. now rewrite lookup_empty in H.
Qed.

Lemma falsy_dict_empty (d : jdict) : truthy (JDict d) = false -> d = ∅.
Proof.
  simpl. destruct (size d) eqn:E; [|discriminate].
  intros _. now apply map_size_empty_inv.
Qed.

(** What the first half of [add_bot_rule] yields on a dict-shaped document:
    a value that holds the rule, taken from the document when it is a dict. *)
Lemma rules_with_rule (d : jdict) (rule : string) (rules : json) :
  obind (get_rules (JDict d)) (fun r0 =>
    obind (py_in rule r0) (fun present =>
      if negb present then py_append r0 rule else Return r0)) = Return rules ->
  py_in rule rules = Return true /\
  (forall v, rules = JDict v -> d !! "rules" = Some (JDict v)).
Proof.
  unfold get_rules, obind, dict_get.
  destruct (d !! "rules") as [r0|] eqn:E; simpl.
  - destruct r0 as [| b | n | s | l | v]; simpl; try discriminate.
    + destruct (str_contains rule s) eqn:Hs; simpl; [|discriminate].
      intros [= <-]. simpl. rewrite Hs. split; [reflexivity|intros ? [=]].
    + destruct (existsb (str_eq_json rule) l) eqn:Hl; simpl; intros [= <-]; simpl.
      * rewrite Hl. split; [reflexivity|intros ? [=]].
      * rewrite existsb_app. simpl. rewrite String.eqb_refl.
        rewrite orb_true_r. split; [reflexivity|intros ? [=]].
    + unfold dict_get. destruct (v !! rule) eqn:Hv; simpl; [|discriminate].
      intros [= <-]. simpl. unfold dict_get. rewrite Hv.
      split; [reflexivity|]. now intros v' [= <-].
  - intros [= <-]. simpl.
    rewrite String.eqb_refl. split; [reflexivity|intros ? [=]].
Qed.

(** Merging the single item [rules] into a document succeeds only on a
    dict, and stores the value under ["rules"]. *)
Lemma merge_rules (existing rules merged : json) :
  merge_settings existing [("rules", rules)] = Return merged ->
  exists d, existing = JDict d /\
    ((forall v, rules = JDict v -> d !! "rules" = Some (JDict v)) ->
     merged = JDict (<["rules" := rules]> d)).
Proof.
  simpl. unfold merge_item.
  destruct existing as [| b | n | s | l | d];
    try (destruct rules; simpl; try discriminate;
         repeat match goal with
                | |- context [if ?c then _ else _] => destruct c; simpl
                end; discriminate).
  intros H. exists d. split; [reflexivity|]. intros Hd.
  destruct rules as [| b | n | s | l | v]; simpl in H;
    try (injection H as <-; reflexivity).
  unfold py_in, py_getitem, dict_get, obind in H.
  rewrite (Hd v eq_refl) in H. simpl in H.
  injection H as <-. unfold dict_update, dict_set.
  now rewrite (idemp_L (∪) v).
Qed.

(** Every call either leaves the folders as they are or writes a dict
    whose ["rules"] entry holds the rule. *)
Lemma add_bot_rule_cases (fs : filesystem) (bot_name rule : string)
    (manager_name : option string) :
  snd (add_bot_rule fs bot_name rule manager_name) = fs \/
  exists (d : jdict) (rules : json) (f : string) (fs' : filesystem),
    denied manager_name bot_name = false /\
    get_bot_folder fs bot_name = Some f /\
    py_in rule rules = Return true /\
    write_settings fs f (JDict (<["rules" := rules]> d)) = Some fs' /\
    add_bot_rule fs bot_name rule manager_name = (Return true, fs').
Proof.
  unfold add_bot_rule.
  set (settings := match get_bot_settings fs bot_name with
                   | Some j => if truthy j then j else JDict ∅
                   | None => JDict ∅
                   end).
  destruct (obind (get_rules settings) _) as [rules|e] eqn:Hr; [|now left].
  unfold set_bot_settings. fold (denied manager_name bot_name).
  destruct (denied manager_name bot_name) eqn:Hden; [now left|].
  destruct (get_bot_folder fs bot_name) as [f|] eqn:Hf; [|now left].
  assert (Hset : forall existing,
             (settings_file fs f = None /\ existing = JDict ∅) \/
             settings_file fs f = Some (Content existing) ->
             forall d, existing = JDict d -> settings = JDict d).
  { intros existing Hcase d ->. subst settings. unfold get_bot_settings.
    rewrite Hf. destruct Hcase as [[-> [= <-]] | ->]; [reflexivity|].
    destruct (truthy (JDict d)) eqn:Ht; [reflexivity|].
    now rewrite (falsy_dict_empty d Ht). }
  assert (Hgo : forall existing,
             (settings_file fs f = None /\ existing = JDict ∅) \/
             settings_file fs f = Some (Content existing) ->
             snd (let '(ok, fs') :=
                    match merge_settings existing [("rules", rules)] with
                    | Return merged =>
                        match write_settings fs f merged with
                        | Some fs' => (true, fs')
                        | None => (false, fs)
                        end
                    | Raise _ => (false, fs)
                    end in (Return ok, fs')) = fs \/
             exists (d : jdict) (rules0 : json) (f0 : string) (fs0 : filesystem),
               false = false /\ Some f = Some f0 /\
               py_in rule rules0 = Return true /\
               write_settings fs f0 (JDict (<["rules" := rules0]> d)) = Some fs0 /\
               (let '(ok, fs') :=
                  match merge_settings existing [("rules", rules)] with
                  | Return merged =>
                      match write_settings fs f merged with
                      | Some fs' => (true, fs')
                      | None => (false, fs)
                      end
                  | Raise _ => (false, fs)
                  end in (Return ok, fs')) = (Return true, fs0)).
  { intros existing Hcase.
    destruct (merge_settings existing [("rules", rules)]) as [merged|e] eqn:Hm;
      [|now left].
    destruct (merge_rules _ _ _ Hm) as [d [-> Hmerged]].
    pose proof (Hset _ Hcase d eq_refl) as Hsettings.
    rewrite Hsettings in Hr.
    destruct (rules_with_rule _ _ _ Hr) as [Hin Hdict].
    rewrite (Hmerged Hdict).
    destruct (write_settings fs f (JDict (<["rules" := rules]> d)))
      as [fs0|] eqn:Hw; [|now left].
    right. exists d, rules, f, fs0. auto. }
  destruct (settings_file fs f) as [[|j]|] eqn:Hfile.
  - now left.
  - apply Hgo. now right.
  - apply Hgo. now left.
Qed.

(** When the stored document already holds the rule, nothing changes. *)
Lemma add_bot_rule_fixed (fs : filesystem) (bot_name rule f : string)
    (manager_name : option string) (d : jdict) (rules : json) :
  get_bot_folder fs bot_name = Some f ->
  settings_file fs f = Some (Content (JDict d)) ->
  d !! "rules" = Some rules ->
  py_in rule rules = Return true ->
  snd (add_bot_rule fs bot_name rule manager_name) = fs.
Proof.
  intros Hf Hfile Hd Hin.
  unfold add_bot_rule, get_bot_settings. rewrite Hf, Hfile.
  rewrite (truthy_dict_with_key d "rules" rules Hd).
  simpl. unfold dict_get. rewrite Hd. simpl. rewrite Hin. simpl.
  unfold set_bot_settings. rewrite Hf, Hfile.
  destruct (truthy_str manager_name && _); [reflexivity|].
  assert (Hm : merge_settings (JDict d) [("rules", rules)] = Return (JDict d)).
  { simpl. unfold merge_item.
    destruct rules as [| b | n | s | l | v]; simpl; unfold dict_set;
      try (now rewrite (insert_id d "rules" _ Hd)).
    unfold py_in, py_getitem, dict_get, obind. rewrite Hd. simpl.
    unfold dict_update, dict_set. rewrite (idemp_L (∪) v).
    now rewrite (insert_id d "rules" _ Hd). }
  rewrite Hm. simpl.
  now rewrite (write_settings_same fs f (JDict d) Hfile).
Qed.

(** C8: [add_bot_rule] is idempotent.  Adding a rule that the [rules]
    array of the stored document already lists leaves every folder, and so
    the document and its array, exactly as it was; and whatever the stored
    document and the rule, a second call with the same arguments leaves the
    folders as the first call left them. *)
Theorem add_bot_rule_idempotent (fs : filesystem) (bot_name rule : string)
    (manager_name : option string) :
  (rule_present fs bot_name rule = true ->
   snd (add_bot_rule fs bot_name rule manager_name) = fs) /\
  snd (add_bot_rule (snd (add_bot_rule fs bot_name rule manager_name))
         bot_name rule manager_name) =
  snd (add_bot_rule fs bot_name rule manager_name).
Proof.
  split.
  - unfold rule_present, get_bot_settings.
    destruct (get_bot_folder fs bot_name) as [f|] eqn:Hf; [|discriminate].
    destruct (settings_file fs f) as [[|j]|] eqn:Hfile;
      try discriminate.
    destruct j as [| | | | |d]; try discriminate.
    unfold dict_get. destruct (d !! "rules") as [r|] eqn:Hd; [|discriminate].
    destruct r as [| | | |l|]; try discriminate.
    intros Hl. eapply add_bot_rule_fixed; eauto. simpl. now rewrite Hl.
  - destruct (add_bot_rule_cases fs bot_name rule manager_name)
      as [Hsame | [d [rules [f [fs' [Hden [Hf [Hin [Hw Heq]]]]]]]]].
    + now rewrite Hsame.
    + rewrite Heq. simpl.
      eapply add_bot_rule_fixed.
      * eapply get_bot_folder_write; eassumption.
      * eapply settings_file_write; eassumption.
      * apply lookup_insert_eq.
      * exact Hin.
Qed.

(** The scenario of the specification: OLLAMA's rules are [["r1"]]; BLACK
    adds ["r1"] again and the array still has the one entry. *)
Lemma add_bot_rule_idempotent_witness :
  rule_present sample_fs "OLLAMA" "r1" = true /\
  snd (add_bot_rule sample_fs "OLLAMA" "r1" (Some "BLACK")) = sample_fs /\
  get_bot_settings (snd (add_bot_rule sample_fs "OLLAMA" "r1" (Some "BLACK"))) "OLLAMA"
    = Some (JDict {[ "rules" := JList [JStr "r1"] ]}).
Proof.
  split; [reflexivity|].
  pose proof (proj1 (add_bot_rule_idempotent sample_fs "OLLAMA" "r1" (Some "BLACK"))
                eq_refl) as H.
  split; [exact H|]. rewrite H. reflexivity.
Defined.

(** C7: a write with a non-empty [manager_name] that does not outrank the
    target returns [False] (the function has no raising path) and leaves
    the folders, hence the target's stored document, unchanged. *)
Theorem set_bot_settings_denied (fs : filesystem) (bot_name : string)
    (settings : list (string * json)) (manager_name : string) :
  String.eqb manager_name "" = false ->
  can_manage_bot manager_name bot_name = false ->
  set_bot_settings fs bot_name settings (Some manager_name) = (false, fs) /\
  get_bot_settings
    (snd (set_bot_settings fs bot_name settings (Some manager_name))) bot_name
  = get_bot_settings fs bot_name.
Proof.
  intros Hne Hrank. unfold set_bot_settings. simpl.
  rewrite Hne, Hrank. simpl. split; reflexivity.
Qed.

(** OLLAMA (grunt) may not patch BLACK (supervisor). *)
Lemma set_bot_settings_denied_witness :
  set_bot_settings sample_fs "BLACK" [("rules", JList [JStr "r1"])] (Some "OLLAMA")
    = (false, sample_fs) /\
  get_bot_settings
    (snd (set_bot_settings sample_fs "BLACK" [("rules", JList [JStr "r1"])]
            (Some "OLLAMA"))) "BLACK"
  = get_bot_settings sample_fs "BLACK".
Proof.
  apply (set_bot_settings_denied sample_fs "BLACK" _ "OLLAMA"); reflexivity.
Defined.
(** ** Session *)

Lemma validate_key_run (w : World) (s : state) :
  _validate_key w s =
  (Return (validated w (api_key (self s))),
   logged (ValidateApiKey (api_key (self s))) s).
Proof.
  unfold _validate_key, validated, bind, gets, issue, logged, ret. simpl.
  destruct (validate_api_key w (api_key (self s))) as [|code [data|]];
    try reflexivity.
  destruct (code =? 200); reflexivity.
Qed.

(** What a call of [connect] comes to: no key and no request; a row and
    the identity read from it; a truthy answer that is not a row, on which
    reading the identity raises; or a refusal. *)
Lemma connect_run (w : World) (key name : option string) (s : state) :
  connect w key name s =
  let c := resolve w key name (self s) in
  let s1 := {| self := c; requests := requests s |} in
  if negb (truthy_str (api_key c)) then (Return false, s1)
  else
    let s2 := logged (ValidateApiKey (api_key c)) s1 in
    match accepted w (api_key c) with
    | Some r => (Return true, {| self := set_identity r c; requests := requests s2 |})
    | None =>
        (if malformed w (api_key c) then Raise AttributeError else Return false, s2)
    end.
Proof.
  unfold connect, resolve, accepted, malformed.
  unfold bind at 1.
  assert (Hres :
    (if truthy_str key then modify (set_api_key key)
     else
       when (truthy_str name)
         (modify (set_api_key
            (environ w ("CLAUDE_COLAB_KEY_" ++ upper (default "" name))))) ;;
       k <- gets api_key ;;
       when (negb (truthy_str k))
         (modify (set_api_key (environ w "CLAUDE_COLAB_KEY"))) ;;
       k <- gets api_key ;;
       when (negb (truthy_str k) && truthy_str name)
         (modify (set_api_key (vend_key (keystore w) (default "" name))))) s
    = (Return tt, {| self := resolve w key name (self s); requests := requests s |})).
  { unfold resolve, when, bind, gets, modify, ret. destruct s as [c rq]; simpl.
    destruct (truthy_str key); [reflexivity|].
    set (e1 := environ w ("CLAUDE_COLAB_KEY_" ++ upper (default "" name))).
    set (e2 := environ w "CLAUDE_COLAB_KEY").
    destruct (truthy_str name); simpl;
      [destruct (truthy_str e1) eqn:E1 | destruct (truthy_str (api_key c)) eqn:E1];
      simpl; rewrite ?E1; simpl;
      destruct (truthy_str e2) eqn:E2; simpl; rewrite ?E1, ?E2; reflexivity. }
  unfold resolve in Hres. rewrite Hres. clear Hres.
  fold (resolve w key name (self s)).
  set (c := resolve w key name (self s)).
  unfold bind, gets. simpl.
  destruct (truthy_str (api_key c)); simpl; [|reflexivity].
  rewrite validate_key_run. simpl.
  destruct (validated w (api_key c)) as [| b | n | t | l | r] eqn:Hv;
    unfold raise, modify, ret, logged; simpl; try reflexivity.
  - destruct b; reflexivity.
  - destruct (n =? 0); reflexivity.
  - destruct (String.eqb t ""); reflexivity.
  - destruct l; reflexivity.
  - destruct (negb (size r =? 0)%nat); reflexivity.
Qed.

Lemma resolve_keeps (w : World) (key name : option string) (c : ClaudeColab) :
  team_id (resolve w key name c) = team_id c /\
  user_id (resolve w key name c) = user_id c /\
  claude_name (resolve w key name c) = claude_name c /\
  project_slug (resolve w key name c) = project_slug c /\
  connected (resolve w key name c) = connected c.
Proof.
  unfold resolve.
  repeat match goal with
         | |- context [if ?b then _ else _] => destruct b; simpl
         end; repeat split; reflexivity.
Qed.

(** With an identity name, the key left in the session is the first
    credential source that holds one. *)
Lemma resolve_first_hit (w : World) (key : option string) (n : string)
    (c : ClaudeColab) :
  String.eqb n "" = false ->
  match first_hit (key_sources w key n) with
  | Some k => api_key (resolve w key (Some n) c) = Some k /\
              truthy_str (Some k) = true
  | None => truthy_str (api_key (resolve w key (Some n) c)) = false
  end.
Proof.
  intros Hn. unfold resolve, key_sources, first_hit. simpl. rewrite Hn. simpl.
  set (e1 := environ w ("CLAUDE_COLAB_KEY_" ++ upper n)).
  set (e2 := environ w "CLAUDE_COLAB_KEY").
  set (e3 := vend_key (keystore w) n).
  destruct key as [k|]; simpl.
  - destruct (String.eqb k "") eqn:Ek; simpl; [|now rewrite Ek].
    destruct e1 as [k1|]; simpl; [destruct (String.eqb k1 "") eqn:E1; simpl|];
      try (now rewrite E1);
      (destruct e2 as [k2|]; simpl; [destruct (String.eqb k2 "") eqn:E2; simpl|];
       try (now rewrite E2);
       (destruct e3 as [k3|]; simpl; [destruct (String.eqb k3 "") eqn:E3; simpl|];
        try (now rewrite E3); reflexivity)).
  - destruct e1 as [k1|]; simpl; [destruct (String.eqb k1 "") eqn:E1; simpl|];
      try (now rewrite E1);
      (destruct e2 as [k2|]; simpl; [destruct (String.eqb k2 "") eqn:E2; simpl|];
       try (now rewrite E2);
       (destruct e3 as [k3|]; simpl; [destruct (String.eqb k3 "") eqn:E3; simpl|];
        try (now rewrite E3); reflexivity)).
Qed.

(** Without a name, the key left in the session is the first of the
    explicit argument, the key already held and the generic variable; the
    keystore plays no part. *)
Lemma resolve_without_name (w : World) (key name : option string)
    (c : ClaudeColab) :
  truthy_str name = false ->
  match first_hit [key; api_key c; environ w "CLAUDE_COLAB_KEY"] with
  | Some k => api_key (resolve w key name c) = Some k /\
              truthy_str (Some k) = true
  | None => truthy_str (api_key (resolve w key name c)) = false
  end /\
  forall w', environ w' = environ w -> resolve w' key name c = resolve w key name c.
Proof.
  intros Hname. split.
  - unfold resolve, first_hit. rewrite Hname. rewrite andb_false_r.
    destruct (truthy_str key) eqn:Ek; simpl.
    + destruct key; [|discriminate]. split; [reflexivity|assumption].
    + destruct (truthy_str (api_key c)) eqn:Es; simpl.
      * destruct (api_key c); [|discriminate]. split; [reflexivity|assumption].
      * destruct (truthy_str (environ w "CLAUDE_COLAB_KEY")) eqn:Ee; simpl.
        -- destruct (environ w "CLAUDE_COLAB_KEY"); [|discriminate].
           split; [reflexivity|assumption].
        -- first [assumption | reflexivity | now rewrite Ee].
  - intros w' Henv. unfold resolve. rewrite Hname, Henv.
    now rewrite !andb_false_r.
Qed.

(** The key [connect] settles on is the first source that holds one. *)
Lemma connect_first_hit (w : World) (key name : option string) (s : state) :
  match first_hit (sources_tried w key name (self s)) with
  | Some k =>
      api_key (resolve w key name (self s)) = Some k /\
      truthy_str (Some k) = true
  | None => truthy_str (api_key (resolve w key name (self s))) = false
  end.
Proof.
  unfold sources_tried. destruct (truthy_str name) eqn:Hname.
  - destruct name as [n|]; [|discriminate]. simpl in Hname.
    apply negb_true_iff in Hname. simpl.
    exact (resolve_first_hit w key n (self s) Hname).
  - exact (proj1 (resolve_without_name w key name (self s) Hname)).
Qed.

(** C6, as the code has it.  With an identity name given, [connect] takes
    its credential from the explicit argument, else the variable scoped to
    the name, else the generic variable, else the keystore entry of the
    name.  Without a name it takes the explicit argument, else the key the
    session already holds, else the generic variable, and does not read
    the keystore.  In both cases the first source that holds a key wins:
    that key is stored in the session and sent to validation; with no
    source holding a key, [connect] returns [False] and issues no
    request. *)
Theorem connect_key_precedence (w : World) (key name : option string)
    (s : state) :
  (truthy_str name = true ->
   sources_tried w key name (self s) = key_sources w key (default "" name)) /\
  (truthy_str name = false ->
   sources_tried w key name (self s)
   = [key; api_key (self s); environ w "CLAUDE_COLAB_KEY"]) /\
  match first_hit (sources_tried w key name (self s)) with
  | Some k =>
      api_key (self (snd (connect w key name s))) = Some k /\
      requests (snd (connect w key name s))
        = (requests s ++ [ValidateApiKey (Some k)])%list
  | None =>
      fst (connect w key name s) = Return false /\
      requests (snd (connect w key name s)) = requests s /\
      truthy_str (api_key (self (snd (connect w key name s)))) = false
  end.
Proof.
  split; [unfold sources_tried; now intros ->|].
  split; [unfold sources_tried; now intros ->|].
  pose proof (connect_first_hit w key name s) as Hres.
  destruct (first_hit (sources_tried w key name (self s))) as [k|];
    rewrite connect_run; cbv zeta.
  - destruct Hres as [Hk Ht]. rewrite Hk, Ht. simpl.
    destruct (accepted w (Some k)); simpl; rewrite ?Hk; auto.
  - rewrite Hres. simpl. auto.
Qed.

(** The scenario of the specification: four sources populated differently,
    then removed one at a time. *)
Lemma connect_key_precedence_witness :
  api_key (self (snd (connect
     (sample_world all_sources sample_keystore TransportError TransportError)
     (Some "cc_explicit") (Some "black") fresh))) = Some "cc_explicit" /\
  api_key (self (snd (connect
     (sample_world all_sources sample_keystore TransportError TransportError)
     None (Some "black") fresh))) = Some "cc_scoped" /\
  api_key (self (snd (connect
     (sample_world generic_only sample_keystore TransportError TransportError)
     None (Some "black") fresh))) = Some "cc_generic" /\
  api_key (self (snd (connect
     (sample_world no_variables sample_keystore TransportError TransportError)
     None (Some "black") fresh))) = Some "cc_vended" /\
  fst (connect
     (sample_world no_variables KeystoreMissing TransportError TransportError)
     None (Some "black") fresh) = Return false.
Proof.
  split; [exact (proj1 (proj2 (proj2 (connect_key_precedence
            (sample_world all_sources sample_keystore TransportError TransportError)
            (Some "cc_explicit") (Some "black") fresh))))|].
  split; [exact (proj1 (proj2 (proj2 (connect_key_precedence
            (sample_world all_sources sample_keystore TransportError TransportError)
            None (Some "black") fresh))))|].
  split; [exact (proj1 (proj2 (proj2 (connect_key_precedence
            (sample_world generic_only sample_keystore TransportError TransportError)
            None (Some "black") fresh))))|].
  split; [exact (proj1 (proj2 (proj2 (connect_key_precedence
            (sample_world no_variables sample_keystore TransportError TransportError)
            None (Some "black") fresh))))|].
  exact (proj1 (proj2 (proj2 (connect_key_precedence
            (sample_world no_variables KeystoreMissing TransportError TransportError)
            None (Some "black") fresh)))).
Defined.

(** The call [connect()] of the auto-connect, on a session that holds a
    key from an earlier call.  The generic variable is set and neither an
    explicit argument nor a scoped variable is: the key tried is the held
    one, not the variable's.  And with no variable and no keystore at all
    the call does not fail for want of a credential: it validates the held
    key and returns [True]. *)
Lemma connect_held_key_first :
  first_hit
    (key_sources
       (sample_world generic_only sample_keystore TransportError TransportError)
       None "") = Some "cc_generic" /\
  api_key (self (snd (connect
     (sample_world generic_only sample_keystore TransportError TransportError)
     None None held_session))) = Some "cc_held" /\
  first_hit
    (key_sources
       (sample_world no_variables KeystoreMissing TransportError TransportError)
       None "") = None /\
  fst (connect
         (sample_world no_variables KeystoreMissing TransportError TransportError)
         None None held_session) = Return true.
Proof. repeat split. Qed.

Lemma accepted_iff (w : World) (k : option string) (r : jdict) :
  accepted w k = Some r <->
  exists body,
    validate_api_key w k = Http 200 (Some body) /\
    first_item body = JDict r /\ r <> ∅.
Proof.
  unfold accepted, validated. split.
  - destruct (validate_api_key w k) as [|code [body|]]; try discriminate.
    destruct (code =? 200) eqn:Ec; [|discriminate].
    apply Z.eqb_eq in Ec. subst code.
    destruct (first_item body) as [| | | | |r0] eqn:Hb; try discriminate.
    destruct (truthy (JDict r0)) eqn:Ht; [|discriminate].
    intros [= <-]. exists body. split; [reflexivity|]. split; [assumption|].
    intros ->. discriminate Ht.
  - intros [body [-> [-> Hne]]]. simpl.
    destruct (size r) eqn:Es; simpl; [|reflexivity].
    now apply map_size_empty_inv in Es.
Qed.

Lemma malformed_iff (w : World) (k : option string) :
  malformed w k = true <->
  exists body,
    validate_api_key w k = Http 200 (Some body) /\
    truthy (first_item body) = true /\
    forall r, first_item body <> JDict r.
Proof.
  unfold malformed, validated. split.
  - destruct (validate_api_key w k) as [|code [body|]]; try discriminate.
    destruct (code =? 200) eqn:Ec; [|discriminate].
    apply Z.eqb_eq in Ec. subst code.
    intros H. exists body. split; [reflexivity|].
    destruct (first_item body); try discriminate H;
      (split; [exact H|intros r; discriminate]).
  - intros [body [-> [Ht Hr]]]. simpl.
    destruct (first_item body); try exact Ht. now contradiction (Hr d).
Qed.

(** C4, as the code has it.  When the resolved key is validated by a 200
    response whose first item is a non-empty row, [connect] stores the
    row's team, user and identity name, sets [connected] and returns
    [True].  When the first item is truthy and not a row, reading the
    identity from it raises [AttributeError].  In every other case
    [connect] returns [False].  Whenever it does not return [True] it
    leaves [connected] and the three identity fields as they were before
    the call. *)
Theorem connect_outcome (w : World) (key name : option string) (s : state) :
  exists (o : outcome bool) (s' : state),
    connect w key name s = (o, s') /\
    let k := api_key (self s') in
    match (if truthy_str k then accepted w k else None) with
    | Some r =>
        (exists body,
           validate_api_key w k = Http 200 (Some body) /\
           first_item body = JDict r /\ r <> ∅) /\
        o = Return true /\ connected (self s') = true /\
        team_id (self s') = row_get "team_id" r /\
        user_id (self s') = row_get "user_id" r /\
        claude_name (self s') = row_get "claude_name" r
    | None =>
        o = (if truthy_str k && malformed w k then Raise AttributeError
             else Return false) /\
        (truthy_str k && malformed w k = true <->
         truthy_str k = true /\
         exists body,
           validate_api_key w k = Http 200 (Some body) /\
           truthy (first_item body) = true /\
           forall r, first_item body <> JDict r) /\
        connected (self s') = connected (self s) /\
        team_id (self s') = team_id (self s) /\
        user_id (self s') = user_id (self s) /\
        claude_name (self s') = claude_name (self s)
    end.
Proof.
  rewrite connect_run. simpl.
  destruct (resolve_keeps w key name (self s)) as [Ht [Hu [Hc [_ Hconn]]]].
  set (c := resolve w key name (self s)) in *.
  assert (Hmal : forall k,
    truthy_str k && malformed w k = true <->
    truthy_str k = true /\
    exists body,
      validate_api_key w k = Http 200 (Some body) /\
      truthy (first_item body) = true /\
      forall r, first_item body <> JDict r).
  { intros k. rewrite andb_true_iff, malformed_iff. reflexivity. }
  destruct (truthy_str (api_key c)) eqn:Ek; simpl.
  - destruct (accepted w (api_key c)) as [r|] eqn:Ha.
    + eexists _, _. split; [reflexivity|]. simpl. rewrite Ek, Ha.
      split; [now apply accepted_iff|]. repeat split; reflexivity.
    + eexists _, _. split; [reflexivity|]. simpl. rewrite Ek, Ha.
      split; [reflexivity|]. split; [pose proof (Hmal (api_key c)) as Hm; rewrite Ek in Hm; exact Hm|].
      repeat split; assumption.
  - eexists _, _. split; [reflexivity|]. simpl. rewrite Ek.
    split; [reflexivity|]. split; [pose proof (Hmal (api_key c)) as Hm; rewrite Ek in Hm; exact Hm|].
    repeat split; assumption.
Qed.

(** A connected session whose new key the backend answers with an empty
    result: [connect] returns [False] and the session is still marked
    connected. *)
Lemma connect_failure_stays_connected :
  accepted (sample_world no_variables KeystoreMissing TransportError TransportError)
    (Some "cc_revoked") = None /\
  fst (connect (sample_world no_variables KeystoreMissing TransportError TransportError)
         (Some "cc_revoked") None black_session) = Return false /\
  connected (self (snd (connect
     (sample_world no_variables KeystoreMissing TransportError TransportError)
     (Some "cc_revoked") None black_session))) <> false.
Proof. split; [reflexivity|]. split; [reflexivity|]. discriminate. Qed.

(** ** Chat, mentions and tasks *)

Lemma ensure_connected_run (w : World) (s : state) :
  _ensure_connected w s =
  if connected (self s) then (Return true, s) else connect w None None s.
Proof.
  unfold _ensure_connected, bind, gets, ret.
  destruct (connected (self s)); reflexivity.
Qed.

Lemma ensure_connected_true (w : World) (s : state) :
  connected (self s) = true -> _ensure_connected w s = (Return true, s).
Proof. intros H. now rewrite ensure_connected_run, H. Qed.

(** Auto-connect tells whether the session is connected afterwards, can
    fail only with the [AttributeError] of [connect] on a session that
    stays disconnected, and issues nothing but validation requests. *)
Lemma ensure_connected_post (w : World) (s : state) :
  exists (o : outcome bool) (s1 : state),
    _ensure_connected w s = (o, s1) /\
    (o = Return (connected (self s1)) \/
     (o = Raise AttributeError /\ connected (self s1) = false)) /\
    exists issued,
      requests s1 = (requests s ++ issued)%list /\
      Forall (fun r => exists k, r = ValidateApiKey k) issued.
Proof.
  rewrite ensure_connected_run.
  destruct (connected (self s)) eqn:Hc.
  - exists (Return true), s. split; [reflexivity|]. split; [left; now rewrite Hc|].
    exists []. now rewrite app_nil_r.
  - rewrite connect_run. cbv zeta.
    destruct (resolve_keeps w None None (self s)) as [_ [_ [_ [_ Hconn]]]].
    set (c := resolve w None None (self s)) in *.
    destruct (truthy_str (api_key c)); simpl.
    + destruct (accepted w (api_key c)) as [r|].
      * eexists _, _. split; [reflexivity|]. simpl. split; [now left|].
        eexists; (split; [reflexivity|]); repeat constructor; eauto.
      * eexists _, _. split; [reflexivity|]. simpl. rewrite Hconn, Hc.
        split; [destruct (malformed w (api_key c)); [right|left]; auto|].
        eexists; (split; [reflexivity|]); repeat constructor; eauto.
    + eexists _, _. split; [reflexivity|]. simpl. rewrite Hconn, Hc.
      split; [now left|]. exists []. now rewrite app_nil_r.
Qed.

(** What a returning auto-connect leaves. *)
Lemma ensure_connected_Return (w : World) (s s1 : state) (b : bool) :
  _ensure_connected w s = (Return b, s1) ->
  connected (self s1) = b /\
  exists issued,
    requests s1 = (requests s ++ issued)%list /\
    Forall (fun r => exists k, r = ValidateApiKey k) issued.
Proof.
  intros H.
  destruct (ensure_connected_post w s) as [o [s1' [Heq [Hcase Hissued]]]].
  rewrite H in Heq. injection Heq as <- <-. split; [|assumption].
  destruct Hcase as [[= ->] | [[=] _]]. reflexivity.
Qed.

Lemma get_chat_connected (w : World) (limit : Z) (s : state) :
  connected (self s) = true ->
  get_chat w limit s =
  (Return (chat_view w limit (self s)),
   logged (GetChat (api_key (self s)) (project_slug (self s)) limit) s).
Proof.
  intros Hc. unfold get_chat, chat_view, bind.
  rewrite (ensure_connected_true w s Hc). simpl.
  unfold gets, issue, logged, ret. simpl.
  destruct (rpc_get_chat w _ _ limit) as [|code [data|]]; try reflexivity.
  destruct (code =? 200); [|reflexivity].
  destruct (py_reversed data); reflexivity.
Qed.

Lemma get_mentions_connected (w : World) (limit : Z) (s : state) :
  connected (self s) = true ->
  get_mentions w limit s =
  (filter_rows (is_mention (self s)) (chat_view w limit (self s)),
   logged (GetChat (api_key (self s)) (project_slug (self s)) limit) s).
Proof.
  intros Hc. unfold get_mentions, bind at 1.
  rewrite (ensure_connected_true w s Hc). simpl.
  unfold bind at 1. rewrite (get_chat_connected w limit s Hc).
  unfold bind, gets, lift, logged, is_mention. simpl. reflexivity.
Qed.

Lemma get_tasks_connected (w : World) (status : option string) (s : state) :
  connected (self s) = true ->
  get_tasks w status s =
  (Return (tasks_view w status (self s)),
   logged (GetSharedTasks ("eq." ++ fmt (team_id (self s)))
             (if truthy_str status then Some ("eq." ++ default "" status)
              else None)) s).
Proof.
  intros Hc. unfold get_tasks, tasks_view, bind.
  rewrite (ensure_connected_true w s Hc). simpl.
  unfold gets, issue, logged, ret. simpl.
  destruct (shared_tasks w _ _) as [|code [data|]]; try reflexivity.
  destruct (code =? 200); reflexivity.
Qed.

(** The loop of [has_new_mentions] keeps the messages that come before the
    first one whose id is [since_id], in the order of its input. *)
Lemma collect_until_prefix (since_id : string) (ms : list jdict) :
  exists rest,
    ms = (collect_until since_id ms ++ rest)%list /\
    Forall (fun m => has_id since_id m = false) (collect_until since_id ms) /\
    match rest with
    | [] => True
    | m :: _ => has_id since_id m = true
    end.
Proof.
  induction ms as [|m ms IH]; simpl.
  - exists []. repeat split. constructor.
  - destruct (has_id since_id m) eqn:E.
    + exists (m :: ms). repeat split; [constructor|assumption].
    + destruct IH as [rest [Heq [Hall Hrest]]].
      exists rest. simpl. split; [now f_equal|]. split; [|assumption].
      now constructor.
Qed.

(** On a connected session [has_new_mentions] with a non-empty [since_id]
    returns what the loop collects from the list of [get_mentions], which
    is in the order of [get_chat]: oldest first. *)
Lemma has_new_mentions_connected (w : World) (since_id : string) (s : state) :
  String.eqb since_id "" = false ->
  has_new_mentions w (Some since_id) s =
  match get_mentions w 20 s with
  | (Return ms, s2) => (Return (collect_until since_id ms), s2)
  | (Raise e, s2) => (Raise e, s2)
  end.
Proof.
  intros Hne. unfold has_new_mentions, bind.
  destruct (get_mentions w 20 s) as [[ms|e] s2]; [|reflexivity].
  simpl. now rewrite Hne.
Qed.

(** C1, on the code: the backend answers [get_chat] newest first with the
    mentions m3, m2, m1.  [has_new_mentions] scans them oldest first, so
    with [since_id] the newest id it returns the two older mentions (not
    the empty list), and with [since_id] the oldest id it returns nothing
    (not the two newer mentions). *)
Theorem has_new_mentions_returns_older :
  fst (get_mentions chatty_world 20 black_session)
    = Return [message "m1" "@BLACK first"; message "m2" "@BLACK second";
              message "m3" "@BLACK third"] /\
  fst (has_new_mentions chatty_world (Some "m3") black_session)
    = Return [message "m1" "@BLACK first"; message "m2" "@BLACK second"] /\
  fst (has_new_mentions chatty_world (Some "m1") black_session) = Return [] /\
  fst (has_new_mentions chatty_world None black_session)
    = fst (get_mentions chatty_world 20 black_session) /\
  fst (has_new_mentions chatty_world (Some "m0") black_session)
    = fst (get_mentions chatty_world 20 black_session).
Proof. repeat (split; [reflexivity|]). reflexivity. Qed.
(** ** Checkpoint *)


Lemma checkpoint_after_connect (w : World) (name : string)
    (hard check_mentions check_tasks : bool) (s s1 : state) :
  _ensure_connected w s = (Return true, s1) ->
  connected (self s1) = true /\
  checkpoint w name hard check_mentions check_tasks s =
  checkpoint w name hard check_mentions check_tasks s1.
Proof.
  intros H.
  destruct (ensure_connected_Return w s s1 true H) as [Hc _].
  split; [assumption|].
  unfold checkpoint, bind at 1.
  rewrite H. symmetry. unfold bind at 1.
  now rewrite (ensure_connected_true w s1 Hc).
Qed.

Lemma filter_rows_exn (p : jdict -> outcome bool) (l : list json) (e : exn) :
  (forall x e', p x = Raise e' -> e' = TypeError) ->
  filter_rows p l = Raise e -> e = TypeError \/ e = AttributeError.
Proof.
  intros Hp. induction l as [|x l IH]; simpl; [discriminate|].
  destruct x as [| | | | |d]; try (intros [= <-]; now right).
  destruct (p d) as [keep|e'] eqn:Hx; simpl.
  - destruct (filter_rows p l) as [rest|e'']; simpl; [discriminate|].
    intros [= <-]. now apply IH.
  - intros [= <-]. left. now apply (Hp d).
Qed.

Lemma is_mention_exn (c : ClaudeColab) (m : jdict) (e : exn) :
  is_mention c m = Raise e -> e = TypeError.
Proof.
  unfold is_mention, py_in.
  destruct (default (JStr "") (dict_get "message" m)); try discriminate;
    now intros [= <-].
Qed.

Lemma my_pending_exn (me ts : json) (e : exn) :
  my_pending me ts = Raise e -> e = TypeError \/ e = AttributeError.
Proof.
  unfold my_pending, obind.
  destruct (py_iter (if truthy ts then ts else JList [])) as [l|e'] eqn:Hi.
  - apply filter_rows_exn. discriminate.
  - intros [= <-]. left.
    destruct (if truthy ts then ts else JList []); try discriminate Hi;
      now injection Hi as <-.
Qed.

(** The mention check leaves the object alone, fetches the chat once when
    enabled, and can only fail with the [TypeError] or the
    [AttributeError] of the filter. *)
Lemma mention_check_connected (w : World) (check_mentions : bool) (s s2 : state)
    (o : outcome (list jdict)) :
  connected (self s) = true ->
  mention_check w check_mentions s = (o, s2) ->
  self s2 = self s /\
  (check_mentions = false -> o = Return [] /\ s2 = s) /\
  (check_mentions = true ->
     o = filter_rows (is_mention (self s)) (chat_view w 20 (self s)) /\
     s2 = logged (GetChat (api_key (self s)) (project_slug (self s)) 20) s) /\
  (forall e, o = Raise e -> e = TypeError \/ e = AttributeError).
Proof.
  intros Hc. unfold mention_check. destruct check_mentions.
  - rewrite (get_mentions_connected w 20 s Hc). intros [= <- <-].
    split; [reflexivity|]. split; [discriminate|]. split; [auto|].
    intros e He. eapply filter_rows_exn; [|exact He].
    intros x e'. apply is_mention_exn.
  - unfold ret. intros [= <- <-]. split; [reflexivity|].
    split; [auto|]. split; [discriminate|]. discriminate.
Qed.

(** The task check leaves the object alone, fetches the pending tasks
    once when enabled, and can only fail with the [TypeError] or the
    [AttributeError] of its filter. *)
Lemma task_check_connected (w : World) (check_tasks : bool) (s : state) :
  connected (self s) = true ->
  exists o s3, task_check w check_tasks s = (o, s3) /\
    self s3 = self s /\
    (check_tasks = false -> o = Return [] /\ s3 = s) /\
    (check_tasks = true ->
       o = my_pending (claude_name (self s))
             (tasks_view w (Some "pending") (self s)) /\
       s3 = logged (GetSharedTasks ("eq." ++ fmt (team_id (self s)))
                      (Some "eq.pending")) s) /\
    (forall e, o = Raise e -> e = TypeError \/ e = AttributeError).
Proof.
  intros Hc. unfold task_check. destruct check_tasks.
  - unfold bind. rewrite (get_tasks_connected w _ s Hc). simpl.
    unfold lift. eexists _, _. split; [reflexivity|]. split; [reflexivity|].
    split; [discriminate|]. split; [intros _; split; reflexivity|].
    intros e. apply my_pending_exn.
  - exists (Return []), s. split; [reflexivity|]. split; [reflexivity|].
    split; [auto|]. split; discriminate.
Qed.

(** On a connected session the gate is the report of what the two checks
    found; an exception of a check ends the call. *)
Lemma checkpoint_connected_run (w : World) (name : string)
    (hard check_mentions check_tasks : bool) (s : state) :
  connected (self s) = true ->
  checkpoint w name hard check_mentions check_tasks s =
  match mention_check w check_mentions s with
  | (Raise e, s2) => (Raise e, s2)
  | (Return ms, s2) =>
      match task_check w check_tasks s2 with
      | (Raise e, s3) => (Raise e, s3)
      | (Return my, s3) => (report name hard (gate_result ms my), s3)
      end
  end.
Proof.
  intros Hc. unfold checkpoint, bind at 1.
  rewrite (ensure_connected_true w s Hc). simpl.
  unfold mention_check, task_check, report, gate_result, blocker.
  unfold bind, ret, lift, gets, raise.
  destruct check_mentions.
  - destruct (get_mentions w 20 s) as [[[|m ms]|e] s2]; [| |reflexivity];
      (destruct check_tasks;
       [destruct (get_tasks w (Some "pending") s2) as [[ts|e] s3];
        [destruct (my_pending (claude_name (self s3)) ts) as [[|t my]|e]|]|]);
      simpl; try reflexivity; destruct hard; reflexivity.
  - destruct check_tasks;
      [destruct (get_tasks w (Some "pending") s) as [[ts|e] s3];
       [destruct (my_pending (claude_name (self s3)) ts) as [[|t my]|e]|]|];
      simpl; try reflexivity; destruct hard; reflexivity.
Qed.


Lemma checkpoint_connected_raise (w : World) (name : string)
    (hard check_mentions check_tasks : bool) (s s2 : state) (e : exn) :
  connected (self s) = true ->
  mention_check w check_mentions s = (Raise e, s2) ->
  checkpoint w name hard check_mentions check_tasks s = (Raise e, s2).
Proof.
  intros Hc Hm. now rewrite (checkpoint_connected_run _ _ _ _ _ _ Hc), Hm.
Qed.

Lemma gate_result_blocked (ms my : list jdict) :
  passed (gate_result ms my) = false <-> blockers (gate_result ms my) <> [].
Proof.
  unfold gate_result, blocker; simpl.
  destruct ms, my; simpl; split; intros H; try reflexivity;
    try discriminate; now contradiction H.
Qed.



(** C3, as the code has it: on a session that is connected or
    auto-connects, when the non-hard call returns [r], the gate failed
    exactly when [r] has blockers; the hard call then raises a
    [RuntimeError] whose only argument is the message string built from the
    checkpoint name and the rendering of [r]'s blockers, and otherwise
    returns [r]; the blocker list is not an argument of the exception.
    The non-hard call raises no [RuntimeError]: what can escape it is the
    [TypeError] or the [AttributeError] of one of the two checks on an
    answer it cannot read, and the hard call then raises the same. *)
Theorem checkpoint_hard_raises (w : World) (name : string)
    (check_mentions check_tasks : bool) (s s1 : state) :
  _ensure_connected w s = (Return true, s1) ->
  match checkpoint w name false check_mentions check_tasks s with
  | (Return r, s3) =>
      (passed r = false <-> blockers r <> []) /\
      checkpoint w name true check_mentions check_tasks s =
        (if passed r then Return r
         else Raise (RuntimeError
                       [JStr (hard_failure_message name (blockers r))]),
         s3) /\
      ~ carries_blockers
          (RuntimeError [JStr (hard_failure_message name (blockers r))])
          (blockers r)
  | (Raise e, s3) =>
      (e = TypeError \/ e = AttributeError) /\
      checkpoint w name true check_mentions check_tasks s = (Raise e, s3)
  end.
Proof.
  intros H.
  destruct (checkpoint_after_connect w name true check_mentions check_tasks
              s s1 H) as [Hc ->].
  destruct (checkpoint_after_connect w name false check_mentions check_tasks
              s s1 H) as [_ ->].
  rewrite !(checkpoint_connected_run w name _ check_mentions check_tasks s1 Hc).
  destruct (mention_check w check_mentions s1) as [[ms|e] s2] eqn:Hm.
  - destruct (mention_check_connected w check_mentions s1 s2 _ Hc Hm)
      as [Hself2 _].
    assert (Hc2 : connected (self s2) = true) by now rewrite Hself2.
    destruct (task_check_connected w check_tasks s2 Hc2)
      as [o [s3 [Ht [_ [_ [_ Hexn]]]]]].
    rewrite Ht. destruct o as [my|e].
    + unfold report. rewrite orb_true_r, orb_false_r.
      split; [apply gate_result_blocked|]. split; [reflexivity|].
      simpl. intros [Heq | []]. discriminate Heq.
    + split; [now apply Hexn|reflexivity].
  - destruct (mention_check_connected w check_mentions s1 s2 _ Hc Hm)
      as [_ [_ [_ Hexn]]].
    split; [now apply Hexn|reflexivity].
Qed.

(** Two mentions block a hard checkpoint of BLACK's session. *)
Lemma checkpoint_hard_raises_witness :
  checkpoint
    (sample_world no_variables KeystoreMissing (Http 200 (Some (rows two_mentions)))
       TransportError)
    "gate" true true false black_session
  = (Raise (RuntimeError
              [JStr "Hard checkpoint 'gate' failed: ['2 unread mentions']"]),
     logged (GetChat (Some "cc_key") "claude-colab" 20) black_session).
Proof.
  pose (w := sample_world no_variables KeystoreMissing
               (Http 200 (Some (rows two_mentions))) TransportError).
  destruct (checkpoint_hard_raises w "gate" true false
              black_session black_session eq_refl) as [_ [Hhard _]].
  exact Hhard.
Defined.

(** A hard checkpoint blocked by two mentions: the exception raised holds
    one string, and the blocker list the non-hard call returns is not among
    its arguments.  And a hard checkpoint on a session that cannot connect
    has a blocker and raises nothing. *)
Lemma checkpoint_hard_carries_text_only :
  fst (checkpoint
         (sample_world no_variables KeystoreMissing (Http 200 (Some (rows two_mentions)))
            TransportError)
         "gate" true true false fresh)
  = Return {| passed := false; mentions := 0; tasks := 0;
              blockers := ["Not connected"] |} /\
  fst (checkpoint
         (sample_world no_variables KeystoreMissing (Http 200 (Some (rows two_mentions)))
            TransportError)
         "gate" false true false black_session)
  = Return {| passed := false; mentions := 2; tasks := 0;
              blockers := ["2 unread mentions"] |} /\
  ~ (exists e,
       fst (checkpoint
              (sample_world no_variables KeystoreMissing
                 (Http 200 (Some (rows two_mentions))) TransportError)
              "gate" true true false black_session) = Raise e /\
       carries_blockers e ["2 unread mentions"]).
Proof.
  split; [reflexivity|]. split; [reflexivity|].
  intros [e [He Hcarry]].
  change (@Raise checkpoint_result
            (RuntimeError
               [JStr (hard_failure_message "gate" ["2 unread mentions"])])
          = Raise e) in He.
  injection He as <-.
  simpl in Hcarry. destruct Hcarry as [Heq | []]. discriminate Heq.
Qed.

(** C10, as the code has it: on a connected session whose chat fetch fails,
    [get_chat] and [get_mentions] return the empty list, so the mention
    check adds no count and no blocker: the gate reports what the task
    check alone finds, and passes with no blockers when that finds nothing
    (in particular when it is off).  When the task check cannot read its
    answer, its exception ends the call. *)
Theorem checkpoint_chat_failure (w : World) (name : string)
    (hard check_tasks : bool) (s : state) :
  connected (self s) = true ->
  fetch_failed (rpc_get_chat w (api_key (self s)) (project_slug (self s)) 20) = true ->
  let s2 := logged (GetChat (api_key (self s)) (project_slug (self s)) 20) s in
  get_chat w 20 s = (Return [], s2) /\
  get_mentions w 20 s = (Return [], s2) /\
  (check_tasks = false -> task_check w check_tasks s2 = (Return [], s2)) /\
  match task_check w check_tasks s2 with
  | (Return my, s3) =>
      checkpoint w name hard true check_tasks s
        = (report name hard (gate_result [] my), s3) /\
      mentions (gate_result [] my) = 0%nat /\
      blockers (gate_result [] my) = blocker " pending tasks" my /\
      (my = [] ->
         checkpoint w name hard true check_tasks s
         = (Return {| passed := true; mentions := 0; tasks := 0; blockers := [] |},
            s3))
  | (Raise e, s3) =>
      check_tasks = true /\
      (e = TypeError \/ e = AttributeError) /\
      checkpoint w name hard true check_tasks s = (Raise e, s3)
  end.
Proof.
  intros Hc Hfail s2.
  assert (Hview : chat_view w 20 (self s) = []).
  { unfold chat_view. unfold fetch_failed in Hfail.
    destruct (rpc_get_chat w _ _ 20) as [|code [data|]]; try reflexivity.
    apply negb_true_iff in Hfail. now rewrite Hfail. }
  assert (Hchat : get_chat w 20 s = (Return [], s2)).
  { rewrite (get_chat_connected w 20 s Hc). now rewrite Hview. }
  assert (Hmen : get_mentions w 20 s = (Return [], s2)).
  { rewrite (get_mentions_connected w 20 s Hc). now rewrite Hview. }
  split; [assumption|]. split; [assumption|].
  assert (Hc2 : connected (self s2) = true) by exact Hc.
  destruct (task_check_connected w check_tasks s2 Hc2)
    as [o [s3 [Ht [_ [Htoff [_ Hexn]]]]]].
  split.
  { intros E. rewrite Ht. now destruct (Htoff E) as [-> ->]. }
  rewrite Ht.
  rewrite (checkpoint_connected_run w name hard true check_tasks s Hc).
  unfold mention_check. rewrite Hmen, Ht.
  destruct o as [my|e].
  - split; [reflexivity|]. split; [reflexivity|]. split; [reflexivity|].
    now intros ->.
  - split.
    { destruct check_tasks; [reflexivity|].
      now destruct (Htoff eq_refl) as [[=] _]. }
    split; [now apply Hexn|reflexivity].
Qed.

Lemma checkpoint_chat_failure_witness :
  checkpoint
    (sample_world no_variables KeystoreMissing TransportError
       (Http 200 (Some (rows one_task))))
    "gate" true true false black_session
  = (Return {| passed := true; mentions := 0; tasks := 0; blockers := [] |},
     logged (GetChat (Some "cc_key") "claude-colab" 20) black_session).
Proof.
  pose (w := sample_world no_variables KeystoreMissing TransportError
               (Http 200 (Some (rows one_task)))).
  destruct (checkpoint_chat_failure w "gate" true false black_session
              eq_refl eq_refl)
    as [_ [_ [Hoff Hgate]]].
  rewrite (Hoff eq_refl) in Hgate.
  destruct Hgate as [_ [_ [_ Hpass]]]. exact (Hpass eq_refl).
Defined.

(** The chat fetch fails while the task check is on and finds a pending
    task of BLACK: the gate does not pass. *)
Lemma checkpoint_chat_failure_still_blocks :
  fetch_failed
    (rpc_get_chat
       (sample_world no_variables KeystoreMissing TransportError
          (Http 200 (Some (rows one_task))))
       (Some "cc_key") "claude-colab" 20) = true /\
  fst (checkpoint
         (sample_world no_variables KeystoreMissing TransportError
            (Http 200 (Some (rows one_task))))
         "gate" false true true black_session)
  = Return {| passed := false; mentions := 0; tasks := 1;
              blockers := ["1 pending tasks"] |} /\
  fst (checkpoint
         (sample_world no_variables KeystoreMissing TransportError
            (Http 200 (Some (rows one_task))))
         "gate" false true true black_session)
  <> Return {| passed := true; mentions := 0; tasks := 0; blockers := [] |}.
Proof.
  split; [reflexivity|]. split; [reflexivity|].
  change (Return {| passed := false; mentions := 0; tasks := 1;
                    blockers := ["1 pending tasks"] |}
          <> Return {| passed := true; mentions := 0; tasks := 0;
                       blockers := [] |}).
  discriminate.
Qed.

(** ** Heartbeat *)

Lemma get_my_instance_connected (w : World) (s : state) :
  connected (self s) = true ->
  exists i,
    get_my_instance w s =
    (Return i,
     logged (GetClaudeInstances ("eq." ++ fmt (claude_name (self s)))
               ("eq." ++ fmt (team_id (self s)))) s).
Proof.
  intros Hc. unfold get_my_instance, bind.
  rewrite (ensure_connected_true w s Hc). simpl.
  unfold gets, issue, ret, logged. simpl.
  destruct (claude_instances w _ _) as [|code [data|]];
    try (eexists; reflexivity).
  destruct (code =? 200); eexists; reflexivity.
Qed.

Lemma update_working_on_post (w : World) (working_on : string) (s : state) :
  connected (self s) = true ->
  exists (b : bool) (s' : state),
    _update_working_on w working_on s = (Return b, s') /\ self s' = self s.
Proof.
  intros Hc. unfold _update_working_on, bind at 1, attempt.
  destruct (get_my_instance_connected w s Hc) as [i ->].
  destruct (negb (truthy i)); [eexists _, _; split; reflexivity|].
  destruct i as [| | | | |i]; try (eexists _, _; split; reflexivity).
  destruct (negb (truthy (row_get "id" i))); [eexists _, _; split; reflexivity|].
  unfold bind, issue, ret. simpl.
  destruct (patch_claude_instances w (row_get "id" i) _);
    eexists _, _; split; reflexivity.
Qed.

(** With the presence call answered by a true body, [heartbeat] reaches
    its mention check with [ok = True], from a state that holds the same
    object. *)
Lemma heartbeat_presence (w : World) (status : string)
    (working_on : option string) (s : state) (j : json) :
  connected (self s) = true ->
  rpc_heartbeat w (api_key (self s)) status (project_slug (self s))
    = Http 200 (Some j) ->
  eq_True j = true ->
  exists mid, self mid = self s /\
    forall check_mentions,
      heartbeat w status working_on check_mentions s =
      (if check_mentions then
         found <- attempt (get_mentions w 20) ;;
         match found with
         | None => ret {| ok := true; hb_mentions := 0; mention_projects := [] |}
         | Some [] => ret {| ok := true; hb_mentions := 0; mention_projects := [] |}
         | Some ms =>
             match py_set [] (project_slugs ms) with
             | Raise _ =>
                 ret {| ok := true; hb_mentions := length ms;
                        mention_projects := [] |}
             | Return projects =>
                 ret {| ok := true; hb_mentions := length ms;
                        mention_projects := projects |}
             end
         end
       else ret {| ok := true; hb_mentions := 0; mention_projects := [] |}) mid.
Proof.
  intros Hc Hresp Hj.
  set (s1 := logged (PostHeartbeat (api_key (self s)) status
                       (project_slug (self s))) s).
  assert (Hc1 : connected (self s1) = true) by exact Hc.
  assert (Hmid : exists mid, self mid = self s /\
            (match working_on with
             | Some wo => when true (_update_working_on w wo ;; ret tt)
             | None => ret tt
             end) s1 = (Return tt, mid)).
  { destruct working_on as [wo|].
    - destruct (update_working_on_post w wo s1 Hc1) as [b [s' [Hup Hself]]].
      exists s'. split; [exact Hself|].
      unfold when, bind. now rewrite Hup.
    - exists s1. split; reflexivity. }
  destruct Hmid as [mid [Hself Hmid]].
  exists mid. split; [assumption|]. intros check_mentions.
  unfold heartbeat, bind at 1.
  rewrite (ensure_connected_true w s Hc). simpl.
  unfold bind at 1. unfold gets at 1. simpl.
  unfold bind at 1. unfold gets at 1. simpl.
  unfold bind at 1. unfold issue at 1. simpl.
  rewrite Hresp. simpl. rewrite Hj.
  change {| self := self s;
            requests := requests s ++
              [PostHeartbeat (api_key (self s)) status (project_slug (self s))] |}
    with s1.
  unfold bind at 1. unfold bind at 1. rewrite Hmid. simpl.
  destruct check_mentions; reflexivity.
Qed.

Lemma scalar_eqb_refl (x : json) : hashable x = true -> scalar_eqb x x = true.
Proof.
  destruct x as [| b | n | t | l | d]; simpl; try discriminate; intros _.
  - reflexivity.
  - now destruct b.
  - apply Z.eqb_refl.
  - apply String.eqb_refl.
Qed.

(** The list built by [py_set] has no element twice and holds only
    elements of its inputs. *)
Lemma py_set_sound (l acc ps : list json) :
  py_set acc l = Return ps ->
  (NoDup acc -> NoDup ps) /\
  (forall p, In p ps -> In p acc \/ In p l).
Proof.
  revert acc. induction l as [|x l IH]; simpl; intros acc.
  - intros [= <-]. split; [auto|]. intros p Hp. now left.
  - destruct (hashable x) eqn:Hx; [|discriminate].
    intros Hset. apply IH in Hset as [Hnodup Hin].
    destruct (existsb (scalar_eqb x) acc) eqn:Hseen.
    + split; [assumption|]. intros p Hp.
      destruct (Hin p Hp); [now left | right; now right].
    + split.
      * intros Hacc. apply Hnodup. apply NoDup_app.
        split; [assumption|]. split; [|apply NoDup_singleton].
        intros y Hy Hyx. apply list_elem_of_singleton in Hyx. subst y.
        apply list_elem_of_In in Hy.
        assert (Hcontra : existsb (scalar_eqb x) acc = true).
        { apply existsb_exists. exists x. split; [assumption|].
          now apply scalar_eqb_refl. }
        rewrite Hcontra in Hseen. discriminate.
      * intros p Hp. destruct (Hin p Hp) as [Hacc | Hl]; [|right; now right].
        apply in_app_or in Hacc as [Hacc | [<- | []]]; [now left|].
        right. now left.
Qed.

Lemma project_slugs_In (ms : list jdict) (p : json) :
  In p (project_slugs ms) ->
  truthy p = true /\ exists m, In m ms /\ dict_get "project_slug" m = Some p.
Proof.
  unfold project_slugs. rewrite in_flat_map. intros [m [Hm Hp]].
  destruct (dict_get "project_slug" m) as [v|] eqn:Hv; [|destruct Hp].
  destruct (truthy v) eqn:Ht; [|destruct Hp].
  destruct Hp as [<- | []]. split; [assumption|]. now exists m.
Qed.

(** C9: on a connected session whose presence call answers 200 with a
    body equal to [True], [heartbeat] with the mention check on returns
    [ok = True] whatever the mention scan does.  When the scan raises, the
    result keeps [mentions = 0] and no projects; when it returns [ms], the
    result has [mentions = len ms] and the distinct non-empty project slugs
    of [ms] (none when building that set raises), each listed once. *)
Theorem heartbeat_ok_despite_scan (w : World) (status : string)
    (working_on : option string) (s : state) (j : json) :
  connected (self s) = true ->
  rpc_heartbeat w (api_key (self s)) status (project_slug (self s))
    = Http 200 (Some j) ->
  eq_True j = true ->
  let mid := snd (heartbeat w status working_on false s) in
  fst (heartbeat w status working_on false s)
    = Return {| ok := true; hb_mentions := 0; mention_projects := [] |} /\
  self mid = self s /\
  ok_of (fst (heartbeat w status working_on true s)) = Some true /\
  match get_mentions w 20 mid with
  | (Return ms, s') =>
      let projects :=
        match py_set [] (project_slugs ms) with
        | Return projects => projects
        | Raise _ => []
        end in
      heartbeat w status working_on true s =
      (Return {| ok := true; hb_mentions := length ms;
                 mention_projects := projects |}, s') /\
      NoDup projects /\
      (forall p, In p projects ->
         truthy p = true /\
         exists m, In m ms /\ dict_get "project_slug" m = Some p)
  | (Raise _, s') =>
      heartbeat w status working_on true s =
      (Return {| ok := true; hb_mentions := 0; mention_projects := [] |}, s')
  end.
Proof.
  intros Hc Hresp Hj mid.
  destruct (heartbeat_presence w status working_on s j Hc Hresp Hj)
    as [mid' [Hself Hrun]].
  assert (Hmid : mid = mid') by (subst mid; now rewrite (Hrun false)).
  rewrite <- Hmid in *. clear Hmid mid'.
  split; [now rewrite (Hrun false)|]. split; [assumption|].
  rewrite (Hrun true). unfold bind, attempt.
  destruct (get_mentions w 20 mid) as [[ms|e] s']; [|split; reflexivity].
  assert (Hprojects :
    forall projects,
      projects = match py_set [] (project_slugs ms) with
                 | Return projects => projects
                 | Raise _ => []
                 end ->
      NoDup projects /\
      (forall p, In p projects ->
         truthy p = true /\
         exists m, In m ms /\ dict_get "project_slug" m = Some p)).
  { intros projects ->.
    destruct (py_set [] (project_slugs ms)) as [ps|e] eqn:Hset.
    - destruct (py_set_sound _ _ _ Hset) as [Hnodup Hin].
      split; [apply Hnodup; constructor|].
      intros p Hp. destruct (Hin p Hp) as [[] | Hp'].
      now apply project_slugs_In.
    - split; [constructor|]. intros p []. }
  destruct ms as [|m ms].
  - split; [reflexivity|]. cbv zeta. split; [reflexivity|].
    now apply Hprojects.
  - split; [destruct (py_set [] (project_slugs (m :: ms))); reflexivity|].
    cbv zeta.
    split; [destruct (py_set [] (project_slugs (m :: ms))); reflexivity|].
    now apply Hprojects.
Qed.

(** A chat row with a null text makes the scan raise, and [ok] is still
    true; with two mentions the count and their one project are folded in. *)
Lemma heartbeat_ok_despite_scan_witness :
  fst (get_mentions
         (sample_world no_variables KeystoreMissing
            (Http 200 (Some (rows [null_message]))) TransportError)
         20 black_session) = Raise TypeError /\
  fst (heartbeat
         (sample_world no_variables KeystoreMissing
            (Http 200 (Some (rows [null_message]))) TransportError)
         "active" None true black_session)
  = Return {| ok := true; hb_mentions := 0; mention_projects := [] |} /\
  fst (heartbeat
         (sample_world no_variables KeystoreMissing
            (Http 200 (Some (rows two_mentions))) TransportError)
         "busy" (Some "migrating") true black_session)
  = Return {| ok := true; hb_mentions := 2;
              mention_projects := [JStr "claude-colab"] |}.
Proof.
  split; [reflexivity|]. split.
  - destruct (heartbeat_ok_despite_scan
                (sample_world no_variables KeystoreMissing
                   (Http 200 (Some (rows [null_message]))) TransportError)
                "active" None black_session (JBool true)
                eq_refl eq_refl eq_refl) as [_ [_ [_ Hscan]]].
    exact (f_equal fst Hscan).
  - destruct (heartbeat_ok_despite_scan
                (sample_world no_variables KeystoreMissing
                   (Http 200 (Some (rows two_mentions))) TransportError)
                "busy" (Some "migrating") black_session (JBool true)
                eq_refl eq_refl eq_refl) as [_ [_ [_ [Hscan _]]]].
    exact (f_equal fst Hscan).
Defined.

(** * Further properties *)

(** ** The role order *)

Lemma upper_ascii_idempotent (c : ascii) : upper_ascii (upper_ascii c) = upper_ascii c.
Proof. destruct c as [[] [] [] [] [] [] [] []]; reflexivity. Qed.

Lemma upper_idempotent (s : string) : upper (upper s) = upper s.
Proof.
  induction s as [|c s IH]; simpl; [reflexivity|].
  now rewrite upper_ascii_idempotent, IH.
Qed.

(** [can_manage_bot] is a strict order on names that ignores the case of
    ASCII letters: nobody manages itself, management is never mutual, it is
    transitive, and upper-casing either name changes nothing. *)
Theorem can_manage_bot_strict_order (a b c : string) :
  can_manage_bot a a = false /\
  (can_manage_bot a b = true -> can_manage_bot b a = false) /\
  (can_manage_bot a b = true -> can_manage_bot b c = true ->
   can_manage_bot a c = true) /\
  can_manage_bot (upper a) b = can_manage_bot a b /\
  can_manage_bot a (upper b) = can_manage_bot a b.
Proof.
  rewrite !can_manage_bot_ranks.
  assert (Hup : forall n, spec_role_of (upper n) = spec_role_of n).
  { intros n. unfold spec_role_of. now rewrite upper_idempotent. }
  rewrite !Hup.
  split; [apply Z.ltb_irrefl|].
  split; [rewrite Z.ltb_lt, Z.ltb_ge; lia|].
  split; [rewrite !Z.ltb_lt; lia|].
  split; reflexivity.
Qed.

(** BLACK outranks INTOLERANT, who outranks OLLAMA: so BLACK manages
    OLLAMA, whatever the case of the letters. *)
Lemma can_manage_bot_strict_order_witness :
  can_manage_bot "black" "Ollama" = true /\
  can_manage_bot "Ollama" "black" = false.
Proof.
  destruct (can_manage_bot_strict_order "black" "Intolerant" "Ollama")
    as [_ [_ [Htrans _]]].
  destruct (can_manage_bot_strict_order "black" "Ollama" "")
    as [_ [Hasym _]].
  split; [exact (Htrans eq_refl eq_refl)|exact (Hasym eq_refl)].
Defined.

(** ** The settings store: merge, read back, frame *)

Lemma merge_item_dict (d : jdict) (k : string) (x : json) :
  merge_item (JDict d) k x = Return (JDict (<[k := merged_value (d !! k) x]> d)).
Proof.
  unfold merge_item, merged_value, py_in, py_getitem, py_setitem, dict_get,
    dict_set, obind.
  destruct x as [| b | n | t | l | v]; try reflexivity.
  destruct (d !! k) as [o|]; [|reflexivity].
  destruct o; reflexivity.
Qed.

Lemma merge_settings_dict (d : jdict) (settings : list (string * json)) :
  merge_settings (JDict d) settings = Return (JDict (merge_dict d settings)).
Proof.
  revert d. induction settings as [|[k x] rest IH]; intros d; [reflexivity|].
  simpl. rewrite merge_item_dict. simpl. apply IH.
Qed.

(** A merge succeeds on a dict, and on anything else only when the patch
    is empty. *)
Lemma merge_settings_Return (j merged : json) (settings : list (string * json)) :
  merge_settings j settings = Return merged ->
  (exists d, j = JDict d /\ merged = JDict (merge_dict d settings)) \/
  (settings = [] /\ merged = j).
Proof.
  destruct j as [| b | n | t | l | d];
    try (destruct settings as [|[k x] rest]; simpl;
         [intros [= <-]; right; split; reflexivity|];
         unfold merge_item, py_in, py_getitem, py_setitem, obind;
         destruct x; simpl;
         repeat match goal with
                | |- context [if ?c then _ else _] => destruct c; simpl
                end; discriminate).
  rewrite merge_settings_dict. intros [= <-]. left. now exists d.
Qed.

Lemma patch_get_None (k : string) (settings : list (string * json)) :
  patch_get k settings = None <-> k ∉ map fst settings.
Proof.
  induction settings as [|[k' x] rest IH]; simpl.
  - split; [intros _; apply not_elem_of_nil|reflexivity].
  - rewrite not_elem_of_cons. destruct (String.eqb k k') eqn:E.
    + apply String.eqb_eq in E. split; [discriminate|]. intros [Hne _].
      now contradiction Hne.
    + apply String.eqb_neq in E. rewrite IH. tauto.
Qed.

Lemma merge_dict_other (d : jdict) (settings : list (string * json)) (k : string) :
  k ∉ map fst settings -> merge_dict d settings !! k = d !! k.
Proof.
  revert d. induction settings as [|[k' x] rest IH]; intros d; simpl;
    [reflexivity|].
  rewrite not_elem_of_cons. intros [Hne Hrest].
  unfold merge_dict in *. simpl. rewrite (IH _ Hrest).
  now rewrite lookup_insert_ne.
Qed.

(** Each key of a patch with distinct keys ends up holding the merge of
    its old value with the patch's; every other key keeps its value. *)
Lemma merge_dict_lookup (d : jdict) (settings : list (string * json)) (k : string) :
  NoDup (map fst settings) ->
  merge_dict d settings !! k =
  match patch_get k settings with
  | Some x => Some (merged_value (d !! k) x)
  | None => d !! k
  end.
Proof.
  revert d. induction settings as [|[k' x] rest IH]; intros d; simpl;
    [reflexivity|].
  rewrite NoDup_cons. intros [Hfresh Hnodup].
  change (merge_dict d ((k', x) :: rest))
    with (merge_dict (<[k' := merged_value (d !! k') x]> d) rest).
  destruct (String.eqb k k') eqn:E.
  - apply String.eqb_eq in E. subst k'.
    rewrite (merge_dict_other _ _ _ Hfresh). apply lookup_insert_eq.
  - apply String.eqb_neq in E. rewrite (IH _ Hnodup).
    now rewrite lookup_insert_ne.
Qed.

Lemma merged_value_twice (old : option json) (x : json) :
  merged_value (Some (merged_value old x)) x = merged_value old x.
Proof.
  unfold merged_value, dict_update.
  destruct x as [| b | n | t | l | v]; try reflexivity.
  destruct old as [[| b | n | t | l | o]|]; try (now rewrite (idemp_L (∪) v)).
  now rewrite (assoc_L (∪)), (idemp_L (∪) v).
Qed.

Lemma merge_dict_twice (d : jdict) (settings : list (string * json)) :
  NoDup (map fst settings) ->
  merge_dict (merge_dict d settings) settings = merge_dict d settings.
Proof.
  intros Hnodup. apply map_eq. intros k.
  rewrite (merge_dict_lookup (merge_dict d settings) settings k Hnodup).
  rewrite (merge_dict_lookup d settings k Hnodup).
  destruct (patch_get k settings) as [x|]; [|reflexivity].
  now rewrite merged_value_twice.
Qed.

(** What a call of [set_bot_settings] comes to: refused, or the merge of
    the stored document written back into the target's folder. *)
Lemma set_bot_settings_run (fs : filesystem) (bot_name : string)
    (settings : list (string * json)) (manager_name : option string) :
  set_bot_settings fs bot_name settings manager_name =
  if denied manager_name bot_name then (false, fs)
  else
    match entries fs !! place fs (upper bot_name) with
    | None => (false, fs)
    | Some _ =>
        match stored_document fs bot_name with
        | None => (false, fs)
        | Some existing =>
            match merge_settings existing settings with
            | Return merged =>
                match write_settings fs (place fs (upper bot_name)) merged with
                | Some fs' => (true, fs')
                | None => (false, fs)
                end
            | Raise _ => (false, fs)
            end
        end
    end.
Proof.
  unfold set_bot_settings, denied, get_bot_folder, stored_document.
  destruct (truthy_str manager_name && _); [reflexivity|].
  destruct (entries fs !! place fs (upper bot_name)); [|reflexivity].
  destruct (settings_file fs (place fs (upper bot_name))) as [[|j]|]; reflexivity.
Qed.

Lemma get_bot_settings_write (fs fs' : filesystem) (bot_name : string) (j : json) :
  write_settings fs (place fs (upper bot_name)) j = Some fs' ->
  get_bot_settings fs' bot_name = Some j.
Proof.
  intros Hw. destruct (write_settings_place _ _ _ _ Hw) as [Hp [He _]].
  unfold get_bot_settings, get_bot_folder, settings_file.
  rewrite Hp, He. now rewrite !lookup_insert_eq.
Qed.

Lemma get_bot_settings_write_other (fs fs' : filesystem) (bot_name other : string)
    (j : json) :
  place fs (upper other) <> place fs (upper bot_name) ->
  write_settings fs (place fs (upper bot_name)) j = Some fs' ->
  get_bot_settings fs' other = get_bot_settings fs other.
Proof.
  intros Hne Hw. destruct (write_settings_place _ _ _ _ Hw) as [Hp [He _]].
  unfold get_bot_settings, get_bot_folder, settings_file.
  rewrite Hp, He.
  rewrite lookup_insert_ne by congruence.
  destruct (entries fs !! place fs (upper other)) eqn:E; [|reflexivity].
  rewrite lookup_insert_ne by congruence. now rewrite E.
Qed.

Lemma get_bot_settings_alias (fs : filesystem) (bot_name other : string) :
  place fs (upper other) = place fs (upper bot_name) ->
  get_bot_settings fs other = get_bot_settings fs bot_name.
Proof.
  intros Heq. unfold get_bot_settings, get_bot_folder. now rewrite Heq.
Qed.

(** A successful write of a patch with distinct keys, read back: a
    document that is a dict holds, under each key of the patch, the old
    value merged with the new one (a dict into a dict, one level deep;
    anything else replaced), and every other key as before.  A stored
    document that is not a dict accepts only the empty patch and is written
    back as it was. *)
Theorem set_bot_settings_read_back (fs fs' : filesystem) (bot_name : string)
    (settings : list (string * json)) (manager_name : option string) :
  NoDup (map fst settings) ->
  set_bot_settings fs bot_name settings manager_name = (true, fs') ->
  exists existing,
    stored_document fs bot_name = Some existing /\
    match existing with
    | JDict d =>
        exists d',
          get_bot_settings fs' bot_name = Some (JDict d') /\
          forall k,
            d' !! k = match patch_get k settings with
                      | Some x => Some (merged_value (d !! k) x)
                      | None => d !! k
                      end
    | _ => settings = [] /\ get_bot_settings fs' bot_name = Some existing
    end.
Proof.
  intros Hnodup. rewrite set_bot_settings_run.
  destruct (denied manager_name bot_name); [discriminate|].
  destruct (entries fs !! place fs (upper bot_name)); [|discriminate].
  destruct (stored_document fs bot_name) as [existing|]; [|discriminate].
  destruct (merge_settings existing settings) as [merged|e] eqn:Hm;
    [|discriminate].
  destruct (write_settings fs (place fs (upper bot_name)) merged)
    as [fs0|] eqn:Hw; [|discriminate].
  intros [= <-]. exists existing. split; [reflexivity|].
  rewrite (get_bot_settings_write fs fs0 bot_name merged Hw).
  destruct (merge_settings_Return _ _ _ Hm) as [[d [-> ->]] | [-> ->]].
  - exists (merge_dict d settings). split; [reflexivity|].
    intros k. now apply merge_dict_lookup.
  - destruct existing; try (split; reflexivity).
    eexists. split; [reflexivity|]. intros k. reflexivity.
Qed.

(** BLACK patches OLLAMA's limits and rules: the limits are merged key by
    key, the rules array is replaced. *)
Lemma set_bot_settings_read_back_witness :
  exists d',
    get_bot_settings
      (snd (set_bot_settings sample_fs "ollama"
              [("rules", JList [JStr "r2"]); ("limits", JDict {[ "ram" := JNum 8 ]})]
              (Some "BLACK"))) "ollama" = Some (JDict d') /\
    d' !! "rules" = Some (JList [JStr "r2"]) /\
    d' !! "limits" = Some (JDict {[ "ram" := JNum 8 ]}).
Proof.
  assert (Hnodup : NoDup (map fst
            [("rules", JList [JStr "r2"]); ("limits", JDict {[ "ram" := JNum 8 ]})]))
    by (simpl; refine (bool_decide_unpack _ _); exact I).
  destruct (set_bot_settings_read_back sample_fs _ "ollama"
              [("rules", JList [JStr "r2"]); ("limits", JDict {[ "ram" := JNum 8 ]})]
              (Some "BLACK") Hnodup eq_refl)
    as [existing [Hstored Hread]].
  injection Hstored as <-. destruct Hread as [d' [Hget Hkeys]].
  exists d'. split; [exact Hget|].
  split; [exact (Hkeys "rules")|exact (Hkeys "limits")].
Defined.

(** Writing the same patch (distinct keys) a second time changes nothing
    more: the folders are as the first write left them. *)
Theorem set_bot_settings_idempotent (fs : filesystem) (bot_name : string)
    (settings : list (string * json)) (manager_name : option string) :
  NoDup (map fst settings) ->
  snd (set_bot_settings (snd (set_bot_settings fs bot_name settings manager_name))
         bot_name settings manager_name)
  = snd (set_bot_settings fs bot_name settings manager_name).
Proof.
  intros Hnodup.
  rewrite (set_bot_settings_run fs).
  destruct (denied manager_name bot_name) eqn:Hden;
    [simpl; now rewrite set_bot_settings_run, Hden|].
  destruct (entries fs !! place fs (upper bot_name)) eqn:Hfolder;
    [|simpl; now rewrite set_bot_settings_run, Hden, Hfolder].
  destruct (stored_document fs bot_name) as [existing|] eqn:Hstored;
    [|simpl; now rewrite set_bot_settings_run, Hden, Hfolder, Hstored].
  destruct (merge_settings existing settings) as [merged|e] eqn:Hm;
    [|simpl; now rewrite set_bot_settings_run, Hden, Hfolder, Hstored, Hm].
  destruct (write_settings fs (place fs (upper bot_name)) merged)
    as [fs0|] eqn:Hw;
    [|simpl; now rewrite set_bot_settings_run, Hden, Hfolder, Hstored, Hm, Hw].
  simpl. rewrite set_bot_settings_run, Hden.
  destruct (write_settings_place _ _ _ _ Hw) as [Hp [He _]].
  rewrite Hp, He, lookup_insert_eq.
  unfold stored_document. rewrite Hp.
  rewrite (settings_file_write fs fs0 _ merged Hw).
  assert (Hagain : merge_settings merged settings = Return merged).
  { destruct (merge_settings_Return _ _ _ Hm) as [[d [-> ->]] | [-> ->]].
    - rewrite merge_settings_dict. now rewrite merge_dict_twice.
    - reflexivity. }
  rewrite Hagain.
  now rewrite (write_settings_same fs0 _ merged (settings_file_write _ _ _ _ Hw)).
Qed.

Lemma set_bot_settings_idempotent_witness :
  snd (set_bot_settings
         (snd (set_bot_settings sample_fs "ollama"
                 [("limits", JDict {[ "ram" := JNum 8 ]})] None))
         "ollama" [("limits", JDict {[ "ram" := JNum 8 ]})] None)
  = snd (set_bot_settings sample_fs "ollama"
           [("limits", JDict {[ "ram" := JNum 8 ]})] None).
Proof.
  apply (set_bot_settings_idempotent sample_fs "ollama"
           [("limits", JDict {[ "ram" := JNum 8 ]})] None).
  simpl. refine (bool_decide_unpack _ _). exact I.
Defined.

(** A write touches nothing but the [settings.json] of the folder that
    the name leads to.  When it returns [False] nothing has changed; in
    every case names lead where they led before, and the document read
    under a name that leads to another folder is as before.  Names are not
    folders, though: a name that leads to the same folder as the target
    (as [OLLAMA/] does for [OLLAMA]) reads what was written. *)
Theorem set_bot_settings_frame (fs : filesystem) (bot_name : string)
    (settings : list (string * json)) (manager_name : option string) :
  (fst (set_bot_settings fs bot_name settings manager_name) = false ->
   snd (set_bot_settings fs bot_name settings manager_name) = fs) /\
  place (snd (set_bot_settings fs bot_name settings manager_name)) = place fs /\
  (forall other,
     place fs (upper other) <> place fs (upper bot_name) ->
     get_bot_settings (snd (set_bot_settings fs bot_name settings manager_name))
       other = get_bot_settings fs other) /\
  (forall other,
     place fs (upper other) = place fs (upper bot_name) ->
     get_bot_settings (snd (set_bot_settings fs bot_name settings manager_name))
       other
     = get_bot_settings (snd (set_bot_settings fs bot_name settings manager_name))
         bot_name).
Proof.
  assert (Halias : forall fs' other,
    place fs' = place fs ->
    place fs (upper other) = place fs (upper bot_name) ->
    get_bot_settings fs' other = get_bot_settings fs' bot_name).
  { intros fs' other Hp Heq. apply get_bot_settings_alias. now rewrite Hp. }
  rewrite set_bot_settings_run.
  destruct (denied manager_name bot_name); [now repeat split; auto|].
  destruct (entries fs !! place fs (upper bot_name)) eqn:Hfolder;
    [|now repeat split; auto].
  destruct (stored_document fs bot_name) as [existing|];
    [|now repeat split; auto].
  destruct (merge_settings existing settings) as [merged|e];
    [|now repeat split; auto].
  destruct (write_settings fs (place fs (upper bot_name)) merged)
    as [fs0|] eqn:Hw; [|now repeat split; auto].
  destruct (write_settings_place _ _ _ _ Hw) as [Hp _].
  simpl. split; [discriminate|]. split; [exact Hp|]. split.
  - intros other Hne. now apply (get_bot_settings_write_other fs fs0 bot_name other merged).
  - intros other Heq. now apply Halias.
Qed.

(** BLACK's document is untouched by a write to OLLAMA's, and a write
    under the name [ollama/] is read back under the name [ollama]. *)
Lemma set_bot_settings_frame_witness :
  get_bot_settings
    (snd (set_bot_settings sample_fs "ollama" [("rules", JList [])] (Some "BLACK")))
    "black"
  = get_bot_settings sample_fs "black" /\
  get_bot_settings
    (snd (set_bot_settings sample_fs "ollama/" [("rules", JList [])] None))
    "ollama"
  = get_bot_settings
      (snd (set_bot_settings sample_fs "ollama/" [("rules", JList [])] None))
      "ollama/".
Proof.
  split.
  - destruct (set_bot_settings_frame sample_fs "ollama" [("rules", JList [])]
                (Some "BLACK")) as [_ [_ [Hother _]]].
    apply Hother. simpl. intros H. discriminate H.
  - destruct (set_bot_settings_frame sample_fs "ollama/" [("rules", JList [])]
                None) as [_ [_ [_ Halias]]].
    apply Halias. reflexivity.
Defined.

(** The hierarchy check is advisory: a call that leaves [manager_name]
    out, or passes the empty string, is never refused, and does exactly
    what the call of a manager who outranks the target does. *)
Theorem set_bot_settings_unchecked (fs : filesystem) (bot_name : string)
    (settings : list (string * json)) :
  denied None bot_name = false /\
  set_bot_settings fs bot_name settings (Some "")
  = set_bot_settings fs bot_name settings None /\
  (forall manager_name,
     can_manage_bot manager_name bot_name = true ->
     set_bot_settings fs bot_name settings (Some manager_name)
     = set_bot_settings fs bot_name settings None).
Proof.
  split; [reflexivity|]. split; [reflexivity|].
  intros manager_name Hcan. rewrite !set_bot_settings_run.
  unfold denied. simpl. rewrite Hcan. simpl. now rewrite andb_false_r.
Qed.

(** OLLAMA, the grunt, patches the supervisor's settings by leaving its
    own name out. *)
Lemma set_bot_settings_unchecked_witness :
  can_manage_bot "OLLAMA" "BLACK" = false /\
  fst (set_bot_settings sample_fs "BLACK" [("model", JStr "tiny")] None) = true /\
  set_bot_settings sample_fs "BLACK" [("model", JStr "tiny")] (Some "")
  = set_bot_settings sample_fs "BLACK" [("model", JStr "tiny")] None.
Proof.
  split; [reflexivity|]. split; [reflexivity|].
  exact (proj1 (proj2 (set_bot_settings_unchecked sample_fs "BLACK"
                         [("model", JStr "tiny")]))).
Defined.

(** Bot names are matched without regard to the case of ASCII letters:
    upper-casing the target's name changes neither a read nor a write nor
    [add_bot_rule]. *)
Theorem bot_name_case_insensitive (fs : filesystem) (bot_name rule : string)
    (settings : list (string * json)) (manager_name : option string) :
  get_bot_settings fs (upper bot_name) = get_bot_settings fs bot_name /\
  set_bot_settings fs (upper bot_name) settings manager_name
  = set_bot_settings fs bot_name settings manager_name /\
  add_bot_rule fs (upper bot_name) rule manager_name
  = add_bot_rule fs bot_name rule manager_name.
Proof.
  assert (Hget : get_bot_settings fs (upper bot_name) = get_bot_settings fs bot_name).
  { unfold get_bot_settings, get_bot_folder. now rewrite upper_idempotent. }
  assert (Hset : forall p, set_bot_settings fs (upper bot_name) p manager_name
                           = set_bot_settings fs bot_name p manager_name).
  { intros p. unfold set_bot_settings, get_bot_folder, can_manage_bot.
    now rewrite !upper_idempotent. }
  split; [assumption|]. split; [apply Hset|].
  unfold add_bot_rule. rewrite Hget.
  destruct (obind _ _); [|reflexivity]. now rewrite Hset.
Qed.

(** [set_bot_todos] replaces [startup_todos] as a whole and leaves every
    other key of a dict document alone. *)
Theorem set_bot_todos_replaces (fs fs' : filesystem) (bot_name : string)
    (todos : list json) (manager_name : option string) (d : jdict) :
  stored_document fs bot_name = Some (JDict d) ->
  set_bot_todos fs bot_name todos manager_name = (true, fs') ->
  get_bot_settings fs' bot_name
  = Some (JDict (<["startup_todos" := JList todos]> d)).
Proof.
  intros Hstored. unfold set_bot_todos. rewrite set_bot_settings_run, Hstored.
  destruct (denied manager_name bot_name); [discriminate|].
  destruct (entries fs !! place fs (upper bot_name)); [|discriminate].
  rewrite merge_settings_dict.
  destruct (write_settings fs (place fs (upper bot_name)) _) as [fs0|] eqn:Hw;
    [|discriminate].
  intros [= <-]. now rewrite (get_bot_settings_write fs fs0 bot_name _ Hw).
Qed.

Lemma set_bot_todos_replaces_witness :
  get_bot_settings
    (snd (set_bot_todos sample_fs "ollama" [JStr "check chat"] (Some "BLACK")))
    "ollama"
  = Some (JDict (<["startup_todos" := JList [JStr "check chat"]]>
                   {[ "rules" := JList [JStr "r1"] ]})).
Proof.
  apply (set_bot_todos_replaces sample_fs _ "ollama" [JStr "check chat"]
           (Some "BLACK") {[ "rules" := JList [JStr "r1"] ]});
    reflexivity.
Defined.

Lemma stored_document_settings (fs : filesystem) (bot_name : string) (d : jdict) :
  is_Some (entries fs !! place fs (upper bot_name)) ->
  stored_document fs bot_name = Some (JDict d) ->
  match get_bot_settings fs bot_name with
  | Some j => if truthy j then j else JDict ∅
  | None => JDict ∅
  end = JDict d.
Proof.
  intros [f Hf]. unfold stored_document, get_bot_settings, get_bot_folder.
  rewrite Hf. destruct (settings_file fs (place fs (upper bot_name))) as [[|j]|];
    try discriminate; intros [= ->]; [|reflexivity].
  destruct (truthy (JDict d)) eqn:Ht; [reflexivity|].
  now rewrite (falsy_dict_empty d Ht).
Qed.

(** Adding a rule that the [rules] array does not hold yet appends it as
    the last entry (an absent array, or an absent file, counts as empty);
    the other keys of the document stay as they are. *)
Theorem add_bot_rule_appends (fs : filesystem) (bot_name rule : string)
    (manager_name : option string) (d : jdict) (l : list json) :
  denied manager_name bot_name = false ->
  has_directory fs bot_name = true ->
  stored_document fs bot_name = Some (JDict d) ->
  default (JList []) (d !! "rules") = JList l ->
  existsb (str_eq_json rule) l = false ->
  fst (add_bot_rule fs bot_name rule manager_name) = Return true /\
  get_bot_settings (snd (add_bot_rule fs bot_name rule manager_name)) bot_name
  = Some (JDict (<["rules" := JList (l ++ [JStr rule])]> d)).
Proof.
  intros Hden Hfolder Hstored Hrules Hnew.
  unfold has_directory in Hfolder.
  destruct (entries fs !! place fs (upper bot_name)) as [[c|]|] eqn:Hex;
    try discriminate.
  unfold add_bot_rule.
  rewrite (stored_document_settings fs bot_name d (ex_intro _ _ Hex) Hstored).
  simpl. unfold dict_get. rewrite Hrules. simpl. rewrite Hnew. simpl.
  rewrite set_bot_settings_run, Hden, Hstored, Hex.
  rewrite merge_settings_dict. simpl.
  destruct (write_settings fs (place fs (upper bot_name)) _) as [fs0|] eqn:Hw.
  - simpl. split; [reflexivity|].
    now rewrite (get_bot_settings_write fs fs0 bot_name _ Hw).
  - exfalso. unfold write_settings in Hw. rewrite Hex in Hw. discriminate.
Qed.

Lemma add_bot_rule_appends_witness :
  get_bot_settings (snd (add_bot_rule sample_fs "ollama" "r2" (Some "BLACK")))
    "ollama"
  = Some (JDict (<["rules" := JList [JStr "r1"; JStr "r2"]]>
                   {[ "rules" := JList [JStr "r1"] ]})) /\
  get_bot_settings (snd (add_bot_rule sample_fs "black" "r1" None)) "black"
  = Some (JDict (<["rules" := JList [JStr "r1"]]> {[ "model" := JStr "opus" ]})).
Proof.
  split.
  - exact (proj2 (add_bot_rule_appends sample_fs "ollama" "r2" (Some "BLACK")
                    {[ "rules" := JList [JStr "r1"] ]} [JStr "r1"]
                    eq_refl eq_refl eq_refl eq_refl eq_refl)).
  - exact (proj2 (add_bot_rule_appends sample_fs "black" "r1" None
                    {[ "model" := JStr "opus" ]} []
                    eq_refl eq_refl eq_refl eq_refl eq_refl)).
Defined.

(** [add_bot_rule] can raise where [set_bot_settings] cannot: a stored
    [rules] value that is null, a boolean or a number makes the membership
    test raise [TypeError], and a stored document that is truthy but not a
    dict makes [.get] raise [AttributeError].  The exception escapes
    before the hierarchy check, whoever the manager is, and the folders are
    unchanged. *)
Theorem add_bot_rule_raises (fs : filesystem) (bot_name rule : string)
    (manager_name : option string) (j : json) :
  get_bot_settings fs bot_name = Some j ->
  truthy j = true ->
  match j with
  | JDict d =>
      forall r, d !! "rules" = Some r ->
        match r with
        | JNull | JBool _ | JNum _ =>
            add_bot_rule fs bot_name rule manager_name = (Raise TypeError, fs)
        | JStr t =>
            str_contains rule t = false ->
            add_bot_rule fs bot_name rule manager_name = (Raise AttributeError, fs)
        | JDict v =>
            v !! rule = None ->
            add_bot_rule fs bot_name rule manager_name = (Raise AttributeError, fs)
        | JList _ => True
        end
  | _ => add_bot_rule fs bot_name rule manager_name = (Raise AttributeError, fs)
  end.
Proof.
  intros Hget Ht. unfold add_bot_rule. rewrite Hget, Ht.
  destruct j as [| b | n | t | l | d]; try reflexivity.
  intros r Hr. unfold get_rules, dict_get. rewrite Hr.
  destruct r as [| b | n | t | l | v]; try reflexivity; try exact I;
    cbn -[str_contains]; unfold dict_get; intros ->; reflexivity.
Qed.

Lemma add_bot_rule_raises_witness :
  add_bot_rule
    {| place := sample_place;
       entries := {[ "C:\claude\OLLAMA" :=
                       Directory (Some (Content (JDict {[ "rules" := JNull ]}))) ]} |}
    "ollama" "r1" (Some "TKINTER")
  = (Raise TypeError,
     {| place := sample_place;
        entries := {[ "C:\claude\OLLAMA" :=
                        Directory (Some (Content (JDict {[ "rules" := JNull ]}))) ]} |}).
Proof.
  exact (add_bot_rule_raises
           {| place := sample_place;
              entries := {[ "C:\claude\OLLAMA" :=
                              Directory
                                (Some (Content (JDict {[ "rules" := JNull ]}))) ]} |}
           "ollama" "r1" (Some "TKINTER") (JDict {[ "rules" := JNull ]})
           eq_refl eq_refl JNull eq_refl).
Defined.

(** ** The keystore *)

Lemma upper_ascii_not_u (c : ascii) : upper_ascii c <> "u"%char.
Proof. destruct c as [[] [] [] [] [] [] [] []]; discriminate. Qed.

Lemma upper_ascii_not_c (c : ascii) : upper_ascii c <> "c"%char.
Proof. destruct c as [[] [] [] [] [] [] [] []]; discriminate. Qed.

(** No upper-cased name is one of the two bookkeeping keys of the store. *)
Lemma upper_not_bookkeeping (name : string) :
  upper name <> "_updated" /\ upper name <> "_comment".
Proof.
  destruct name as [|c1 [|c2 rest]]; simpl; split; try discriminate;
    intros H; injection H as _ H2 _.
  - exact (upper_ascii_not_u c2 H2).
  - exact (upper_ascii_not_c c2 H2).
Qed.

Lemma requester_valid_iff (w : World) (k : option string) :
  requester_valid w k = true <->
  exists body, validate_api_key w k = Http 200 (Some body) /\ truthy body = true.
Proof.
  unfold requester_valid. split.
  - destruct (validate_api_key w k) as [|code [body|]]; try discriminate.
    intros H. apply andb_true_iff in H as [Hc Ht].
    apply Z.eqb_eq in Hc. subst. eauto.
  - intros [body [-> Ht]]. now rewrite Ht.
Qed.

(** A successful [stock_key] followed by [vend_key]: the key comes back
    for the name in any letter case, every entry under another name is as
    before, and the store records the time of the write. *)
Theorem stock_then_vend (w : World) (now : string) (ks ks' : keystore_file)
    (name key : string) (requester_key : option string) :
  stock_key w now ks name key requester_key = (true, ks') ->
  vend_key ks' name = Some key /\
  (forall other, upper other = upper name -> vend_key ks' other = Some key) /\
  (forall other, upper other <> upper name ->
     vend_key ks' other = vend_key ks other) /\
  exists keys', ks' = Keystore keys' /\ keys' !! "_updated" = Some now.
Proof.
  unfold stock_key.
  destruct (truthy_str requester_key && _); [discriminate|].
  destruct (upper_not_bookkeeping name) as [Hupd Hcom].
  destruct ks as [| |keys]; [|discriminate|]; intros [= <-]; simpl.
  - split; [apply lookup_insert_eq|].
    split; [intros other ->; apply lookup_insert_eq|].
    split.
    + intros other Hne. rewrite lookup_insert_ne by congruence.
      destruct (upper_not_bookkeeping other) as [Hupd' Hcom'].
      rewrite lookup_insert_ne by congruence.
      rewrite lookup_insert_ne by congruence.
      now rewrite lookup_singleton_ne by congruence.
    + eexists. split; [reflexivity|].
      rewrite lookup_insert_ne by congruence. apply lookup_insert_eq.
  - split; [apply lookup_insert_eq|].
    split; [intros other ->; apply lookup_insert_eq|].
    split.
    + intros other Hne. rewrite lookup_insert_ne by congruence.
      destruct (upper_not_bookkeeping other) as [Hupd' _].
      now rewrite lookup_insert_ne by congruence.
    + eexists. split; [reflexivity|].
      rewrite lookup_insert_ne by congruence. apply lookup_insert_eq.
Qed.

(** BLACK's key stays where it is when INTOLERANT's is stocked. *)
Lemma stock_then_vend_witness :
  vend_key
    (snd (stock_key chatty_world "2026-01-05 10:00" sample_keystore
            "Intolerant" "cc_new" (Some "cc_key"))) "intolerant" = Some "cc_new" /\
  vend_key
    (snd (stock_key chatty_world "2026-01-05 10:00" sample_keystore
            "Intolerant" "cc_new" (Some "cc_key"))) "black" = Some "cc_vended".
Proof.
  destruct (stock_then_vend chatty_world "2026-01-05 10:00" sample_keystore _
              "Intolerant" "cc_new" (Some "cc_key") eq_refl)
    as [_ [Hsame [Hother _]]].
  split; [apply Hsame; reflexivity|].
  rewrite Hother; [reflexivity|]. simpl. intros H. discriminate H.
Defined.

(** [stock_key] fails in exactly two cases: a requester key was given and
    its validation did not answer 200 with a truthy body, or the keystore
    file does not parse; it then leaves the file as it was.  In
    particular, without a requester key nothing is validated. *)
Theorem stock_key_failure (w : World) (now : string) (ks : keystore_file)
    (name key : string) (requester_key : option string) :
  (fst (stock_key w now ks name key requester_key) = false <->
   (truthy_str requester_key = true /\
    ~ exists body,
        validate_api_key w requester_key = Http 200 (Some body) /\
        truthy body = true) \/
   ks = KeystoreCorrupt) /\
  (fst (stock_key w now ks name key requester_key) = false ->
   snd (stock_key w now ks name key requester_key) = ks).
Proof.
  unfold stock_key.
  destruct (truthy_str requester_key) eqn:Hreq; simpl.
  - destruct (requester_valid w requester_key) eqn:Hvalid; simpl.
    + apply requester_valid_iff in Hvalid.
      destruct ks; simpl; split; try tauto; try discriminate.
      * split; [discriminate|]. intros [[_ Hno] | Hc]; [now contradiction Hno|].
        discriminate Hc.
      * split; [discriminate|]. intros [[_ Hno] | Hc]; [now contradiction Hno|].
        discriminate Hc.
    + split; [|reflexivity]. split; [|reflexivity].
      intros _. left. split; [reflexivity|].
      intros Hex. apply requester_valid_iff in Hex. congruence.
  - destruct ks; simpl; split; try tauto; try discriminate.
    + split; [discriminate|]. intros [[Hf _] | Hc]; discriminate.
    + split; [discriminate|]. intros [[Hf _] | Hc]; discriminate.
Qed.

(** A revoked requester key is refused; with no requester the same write
    goes through unvalidated. *)
Lemma stock_key_failure_witness :
  stock_key chatty_world "2026-01-05 10:00" sample_keystore
    "OLLAMA" "cc_new" (Some "cc_revoked") = (false, sample_keystore) /\
  fst (stock_key chatty_world "2026-01-05 10:00" sample_keystore
         "OLLAMA" "cc_new" None) = true.
Proof.
  destruct (stock_key_failure chatty_world "2026-01-05 10:00" sample_keystore
              "OLLAMA" "cc_new" (Some "cc_revoked")) as [_ Hkeep].
  split; [|reflexivity].
  apply injective_projections; [reflexivity|]. apply Hkeep. reflexivity.
Defined.

Lemma stock_key_vend (w : World) (now : string) (ks ks' : keystore_file)
    (name key : string) (requester_key : option string) :
  stock_key w now ks name key requester_key = (true, ks') ->
  vend_key ks' name = Some key.
Proof.
  unfold stock_key.
  destruct (truthy_str requester_key && _); [discriminate|].
  destruct ks as [| |keys]; [|discriminate|]; intros [= <-]; simpl;
    apply lookup_insert_eq.
Qed.

Lemma stock_key_false (w : World) (now : string) (ks : keystore_file)
    (name key : string) (requester_key : option string) :
  fst (stock_key w now ks name key requester_key) = false ->
  snd (stock_key w now ks name key requester_key) = ks.
Proof.
  unfold stock_key.
  destruct (truthy_str requester_key && _); [reflexivity|].
  destruct ks; simpl; try discriminate; reflexivity.
Qed.

(** The buddy system end to end: once [help_buddy] has stocked a key for
    a buddy, a [connect] that gives only the buddy's name, in an environment
    without a key variable, picks exactly that key and sends it to
    validation. *)
Theorem help_buddy_then_connect (w : World) (now buddy_name buddy_key : string)
    (s s' s0 : state) (ks' : keystore_file) :
  String.eqb buddy_name "" = false ->
  String.eqb buddy_key "" = false ->
  truthy_str (environ w ("CLAUDE_COLAB_KEY_" ++ upper buddy_name)) = false ->
  truthy_str (environ w "CLAUDE_COLAB_KEY") = false ->
  help_buddy w now buddy_name buddy_key s = ((Return true, s'), ks') ->
  api_key (self (snd (connect (with_keystore ks' w) None (Some buddy_name) s0)))
    = Some buddy_key /\
  requests (snd (connect (with_keystore ks' w) None (Some buddy_name) s0))
    = (requests s0 ++ [ValidateApiKey (Some buddy_key)])%list.
Proof.
  intros Hname Hkey Hscoped Hgeneric Hhelp.
  assert (Hvend : vend_key ks' buddy_name = Some buddy_key).
  { unfold help_buddy in Hhelp.
    destruct (_ensure_connected w s) as [[[|]|e] s1]; try discriminate.
    destruct (stock_key w now (keystore w) buddy_name buddy_key
                (api_key (self s1))) as [stocked ks1] eqn:Hstock.
    injection Hhelp as -> _ <-.
    now apply stock_key_vend in Hstock. }
  pose proof (resolve_first_hit (with_keystore ks' w) None buddy_name
                (self s0) Hname) as Hres.
  unfold key_sources, first_hit in Hres. simpl in Hres.
  rewrite Hscoped, Hgeneric, Hvend in Hres. simpl in Hres.
  rewrite Hkey in Hres. simpl in Hres. destruct Hres as [Hres _].
  rewrite connect_run. cbv zeta. rewrite Hres. simpl. rewrite Hkey. simpl.
  destruct (accepted (with_keystore ks' w) (Some buddy_key)); simpl;
    rewrite ?Hres; split; reflexivity.
Qed.

(** BLACK helps INTOLERANT, whose key is then vended to a fresh session. *)
Lemma help_buddy_then_connect_witness :
  api_key (self (snd (connect
     (with_keystore
        (snd (help_buddy chatty_world "2026-01-05 10:00" "intolerant" "cc_theirs"
                black_session))
        chatty_world)
     None (Some "Intolerant") fresh))) = Some "cc_theirs".
Proof.
  exact (proj1 (help_buddy_then_connect chatty_world "2026-01-05 10:00"
                  "intolerant" "cc_theirs" black_session _ fresh _
                  eq_refl eq_refl eq_refl eq_refl eq_refl)).
Defined.

(** [help_buddy] returns [True] only on a connected session; whenever it
    does not return [True] the keystore file is as it was; the only
    exception it can raise is the [AttributeError] of the auto-connect; and
    when the session cannot connect nothing is stocked and nothing but the
    validation of the auto-connect is sent. *)
Theorem help_buddy_guard (w : World) (now buddy_name buddy_key : string)
    (s : state) :
  exists (o : outcome bool) (s' : state) (ks' : keystore_file),
    help_buddy w now buddy_name buddy_key s = ((o, s'), ks') /\
    (o = Return true -> connected (self s') = true) /\
    (o <> Return true -> ks' = keystore w) /\
    (forall e, o = Raise e ->
       e = AttributeError /\ fst (_ensure_connected w s) = Raise AttributeError) /\
    (fst (_ensure_connected w s) = Return false ->
     o = Return false /\ s' = snd (_ensure_connected w s)).
Proof.
  unfold help_buddy.
  destruct (ensure_connected_post w s) as [c [s1 [Heq [Hcase _]]]].
  rewrite Heq. destruct Hcase as [-> | [-> Hc]].
  - destruct (connected (self s1)) eqn:Hc.
    + destruct (stock_key w now (keystore w) buddy_name buddy_key
                  (api_key (self s1))) as [stocked ks1] eqn:Hstock.
      eexists _, _, _. split; [reflexivity|].
      split; [intros _; now destruct (truthy_str (api_key (self s1)))|].
      split.
      { intros Hne. destruct stocked; [now contradiction Hne|].
        change ks1 with (snd (false, ks1)). rewrite <- Hstock.
        apply stock_key_false. now rewrite Hstock. }
      split; [intros e; destruct stocked; discriminate|]. discriminate.
    + eexists _, _, _. split; [reflexivity|].
      split; [discriminate|]. split; [reflexivity|].
      split; [discriminate|]. intros _. split; reflexivity.
  - eexists _, _, _. split; [reflexivity|].
    split; [discriminate|]. split; [reflexivity|].
    split; [intros e [= <-]; split; reflexivity|]. discriminate.
Qed.

(** A session without a credential cannot help: nothing is stocked. *)
Lemma help_buddy_guard_witness :
  help_buddy chatty_world "2026-01-05 10:00" "intolerant" "cc_theirs" fresh
  = ((Return false, snd (_ensure_connected chatty_world fresh)),
     keystore chatty_world).
Proof.
  destruct (help_buddy_guard chatty_world "2026-01-05 10:00" "intolerant"
              "cc_theirs" fresh) as [o [s' [ks' [Hrun [_ [Hks [_ Hoff]]]]]]].
  destruct (Hoff eq_refl) as [Ho Hs']. rewrite Hrun, Hs', Ho.
  rewrite Hks; [reflexivity|]. rewrite Ho. discriminate.
Defined.

(** ** The session: connecting *)

(** Without an identity name the keystore is never read, and the
    credential is the explicit argument, else the key the session already
    holds, else the generic variable: a key left in the session by an
    earlier call wins over the environment. *)
Theorem connect_without_name (w : World) (key name : option string) (s : state)
    (ks : keystore_file) :
  truthy_str name = false ->
  connect (with_keystore ks w) key name s = connect w key name s /\
  match first_hit [key; api_key (self s); environ w "CLAUDE_COLAB_KEY"] with
  | Some k =>
      api_key (self (snd (connect w key name s))) = Some k /\
      requests (snd (connect w key name s))
        = (requests s ++ [ValidateApiKey (Some k)])%list
  | None =>
      fst (connect w key name s) = Return false /\
      requests (snd (connect w key name s)) = requests s
  end.
Proof.
  intros Hname.
  assert (Hres : forall w',
    environ w' = environ w ->
    api_key (resolve w' key name (self s)) =
    match first_hit [key; api_key (self s); environ w "CLAUDE_COLAB_KEY"] with
    | Some k => Some k
    | None => api_key (resolve w' key name (self s))
    end /\
    (first_hit [key; api_key (self s); environ w "CLAUDE_COLAB_KEY"] = None ->
     truthy_str (api_key (resolve w' key name (self s))) = false) /\
    resolve w' key name (self s) = resolve w key name (self s)).
  { intros w' Henv. unfold resolve, first_hit. rewrite Hname, Henv.
    rewrite andb_false_r.
    destruct (truthy_str key) eqn:Ek; simpl.
    - destruct key; [|discriminate]. repeat split. discriminate.
    - destruct (truthy_str (api_key (self s))) eqn:Es; simpl.
      + destruct (api_key (self s)); [|discriminate]. repeat split. discriminate.
      + destruct (truthy_str (environ w "CLAUDE_COLAB_KEY")) eqn:Ee; simpl.
        * destruct (environ w "CLAUDE_COLAB_KEY"); [|discriminate].
          repeat split. discriminate.
        * repeat split. }
  split.
  - rewrite !connect_run. cbv zeta.
    destruct (Hres (with_keystore ks w) eq_refl) as [_ [_ ->]].
    reflexivity.
  - destruct (Hres w eq_refl) as [Hkey [Hnone _]].
    rewrite connect_run. cbv zeta.
    destruct (first_hit [key; api_key (self s); environ w "CLAUDE_COLAB_KEY"])
      as [k|] eqn:Hfirst.
    + assert (Htruthy : truthy_str (Some k) = true).
      { revert Hfirst. unfold first_hit.
        repeat match goal with
               | |- context [truthy_str ?o] =>
                   lazymatch o with
                   | Some k => fail
                   | _ => destruct (truthy_str o) eqn:?
                   end
               end; intros [= <-] || intros [=]; assumption. }
      rewrite Hkey, Htruthy. simpl.
      destruct (accepted w (Some k)); simpl; rewrite ?Hkey; split; reflexivity.
    + rewrite (Hnone eq_refl). simpl. split; reflexivity.
Qed.

(** After a refused [connect("cc_revoked")] the session keeps that key,
    and a later plain [connect()] tries it again although the generic
    variable holds another key. *)
Lemma connect_without_name_witness :
  api_key (self (snd (connect
     (sample_world generic_only sample_keystore TransportError TransportError)
     None None
     (snd (connect
             (sample_world generic_only sample_keystore TransportError TransportError)
             (Some "cc_revoked") None fresh)))))
  = Some "cc_revoked".
Proof.
  exact (proj1 (proj2 (connect_without_name
           (sample_world generic_only sample_keystore TransportError TransportError)
           None None
           (snd (connect
                   (sample_world generic_only sample_keystore TransportError
                      TransportError)
                   (Some "cc_revoked") None fresh))
           sample_keystore eq_refl))).
Defined.

(** Auto-connect: [_ensure_connected] tells whether the session is
    connected afterwards, unless the validation answer is truthy without
    being a row: then the [AttributeError] of [connect] escapes and the
    session stays disconnected.  It sends at most one request (the
    validation of the session's key), leaves a connected session exactly
    as it is, and after a success repeats as a no-op. *)
Theorem ensure_connected_once (w : World) (s : state) :
  exists (o : outcome bool) (s1 : state),
    _ensure_connected w s = (o, s1) /\
    (o = Return (connected (self s1)) \/
     (o = Raise AttributeError /\ connected (self s1) = false /\
      malformed w (api_key (self s1)) = true)) /\
    (requests s1 = requests s \/
     requests s1 = (requests s ++ [ValidateApiKey (api_key (self s1))])%list) /\
    (connected (self s) = true -> o = Return true /\ s1 = s) /\
    (o = Return true -> _ensure_connected w s1 = (Return true, s1)).
Proof.
  rewrite ensure_connected_run.
  destruct (connected (self s)) eqn:Hc.
  - exists (Return true), s. split; [reflexivity|].
    split; [left; now rewrite Hc|].
    split; [now left|]. split; [auto|].
    intros _. now apply ensure_connected_true.
  - rewrite connect_run. cbv zeta.
    destruct (resolve_keeps w None None (self s)) as [_ [_ [_ [_ Hconn]]]].
    set (c := resolve w None None (self s)) in *.
    destruct (truthy_str (api_key c)); simpl.
    + destruct (accepted w (api_key c)) as [r|].
      * eexists _, _. split; [reflexivity|]. simpl.
        split; [now left|]. split; [now right|]. split; [discriminate|].
        intros _. now apply ensure_connected_true.
      * eexists _, _. split; [reflexivity|]. simpl. rewrite Hconn, Hc.
        split.
        { destruct (malformed w (api_key c)); [right|left]; auto. }
        split; [now right|]. split; [discriminate|].
        destruct (malformed w (api_key c)); discriminate.
    + eexists _, _. split; [reflexivity|]. simpl. rewrite Hconn, Hc.
      split; [now left|]. split; [now left|]. split; discriminate.
Qed.

(** BLACK's connected session is left as it is; and a backend whose
    validation answers with an array of one string makes the auto-connect
    of a session that holds a key raise. *)
Lemma ensure_connected_once_witness :
  _ensure_connected chatty_world black_session = (Return true, black_session) /\
  fst (_ensure_connected malformed_world held_session) = Raise AttributeError.
Proof.
  split; [|reflexivity].
  destruct (ensure_connected_once chatty_world black_session)
    as [o [s1 [Hrun [_ [_ [Hconn _]]]]]].
  destruct (Hconn eq_refl) as [Ho Hs1]. rewrite Hrun, Ho, Hs1. reflexivity.
Defined.

(** ** The session: mentions *)

Lemma filter_rows_Return (p : jdict -> outcome bool) (l : list json)
    (ms : list jdict) :
  filter_rows p l = Return ms ->
  exists rows,
    l = map JDict rows /\
    ms = List.filter (fun d => match p d with Return b => b | Raise _ => false end)
           rows.
Proof.
  revert ms. induction l as [|x l IH]; simpl; intros ms.
  - intros [= <-]. now exists [].
  - destruct x as [| | | | |d]; try discriminate.
    destruct (p d) as [keep|e] eqn:Hd; simpl; [|discriminate].
    destruct (filter_rows p l) as [rest|e]; simpl; [|discriminate].
    intros [= <-]. destruct (IH rest eq_refl) as [rows [-> ->]].
    exists (d :: rows). split; [reflexivity|]. simpl. now rewrite Hd.
Qed.

Lemma filter_rows_Raise (p : jdict -> outcome bool) (l : list json) (e : exn) :
  filter_rows p l = Raise e ->
  (e = AttributeError /\ Exists (fun x => forall d, x <> JDict d) l) \/
  Exists (fun x => exists d, x = JDict d /\ p d = Raise e) l.
Proof.
  induction l as [|x l IH]; simpl; [discriminate|].
  destruct x as [| | | | |d];
    try (intros [= <-]; left; split; [reflexivity|];
         apply Exists_cons_hd; intros d; discriminate).
  destruct (p d) as [keep|e'] eqn:Hd; simpl.
  - destruct (filter_rows p l) as [rest|e'']; simpl; [discriminate|].
    intros [= <-]. destruct (IH eq_refl) as [[-> Hex] | Hex].
    + left. split; [reflexivity|]. now apply Exists_cons_tl.
    + right. now apply Exists_cons_tl.
  - intros [= <-]. right. apply Exists_cons_hd. eauto.
Qed.

Lemma mentions_me_has_text (c : ClaudeColab) (m : jdict) :
  mentions_me c m = true -> exists text, dict_get "message" m = Some text.
Proof.
  unfold mentions_me, is_mention.
  destruct (dict_get "message" m) as [text|]; [eauto|].
  simpl. discriminate.
Qed.

(** [get_mentions] on a connected session fetches the chat once.  When it
    returns, every row of the chat is an object and the result is, oldest
    first, exactly the rows whose text holds the tag; rows without a text
    never match.  It raises [AttributeError] when some row is not an
    object, and [TypeError] when the text of some row is null, a boolean
    or a number; nothing else. *)
Theorem get_mentions_filter (w : World) (limit : Z) (s : state) :
  connected (self s) = true ->
  snd (get_mentions w limit s)
    = logged (GetChat (api_key (self s)) (project_slug (self s)) limit) s /\
  match fst (get_mentions w limit s) with
  | Return ms =>
      (exists rows,
         chat_view w limit (self s) = map JDict rows /\
         ms = List.filter (mentions_me (self s)) rows) /\
      Forall (fun m => exists text, dict_get "message" m = Some text) ms
  | Raise e =>
      (e = AttributeError /\
       Exists (fun x => forall d, x <> JDict d) (chat_view w limit (self s))) \/
      (e = TypeError /\
       Exists (fun x => exists d, x = JDict d /\
                                  is_mention (self s) d = Raise TypeError)
         (chat_view w limit (self s)))
  end.
Proof.
  intros Hc. rewrite (get_mentions_connected w limit s Hc). simpl.
  split; [reflexivity|].
  destruct (filter_rows (is_mention (self s)) (chat_view w limit (self s)))
    as [ms|e] eqn:Hf.
  - destruct (filter_rows_Return _ _ _ Hf) as [rows [Hrows Hms]].
    split; [exists rows; split; assumption|].
    rewrite Hms. apply List.Forall_forall. intros m Hm.
    apply filter_In in Hm. destruct Hm as [_ Hm].
    now apply (mentions_me_has_text (self s)).
  - destruct (filter_rows_Raise _ _ _ Hf) as [Hattr | Hex]; [now left|].
    right.
    assert (He : e = TypeError).
    { apply List.Exists_exists in Hex. destruct Hex as [x [_ [d [_ Hd]]]].
      now apply (is_mention_exn (self s) d). }
    subst e. split; [reflexivity|assumption].
Qed.

(** BLACK reads the chat of the sample backend: one request, and the
    three mentions, oldest first.  A row that is a string makes the same
    call raise. *)
Lemma get_mentions_filter_witness :
  snd (get_mentions chatty_world 20 black_session)
  = logged (GetChat (Some "cc_key") "claude-colab" 20) black_session /\
  fst (get_mentions chatty_world 20 black_session)
  = Return [ message "m1" "@BLACK first"; message "m2" "@BLACK second";
             message "m3" "@BLACK third" ] /\
  fst (get_mentions
         (sample_world no_variables KeystoreMissing
            (Http 200 (Some chat_with_string)) TransportError)
         20 black_session)
  = Raise AttributeError.
Proof.
  split; [|split; reflexivity].
  exact (proj1 (get_mentions_filter chatty_world 20 black_session eq_refl)).
Defined.

(** What [has_new_mentions] makes of the list of [get_mentions]: all of it
    when [since_id] is missing or empty; otherwise the rows that come
    before the first one with that id, that is the mentions older than
    [since_id], and all of them when no row has the id. *)
Theorem has_new_mentions_older (w : World) (since_id : option string) (s : state)
    (ms : list jdict) :
  fst (get_mentions w 20 s) = Return ms ->
  snd (has_new_mentions w since_id s) = snd (get_mentions w 20 s) /\
  (truthy_str since_id = false ->
   fst (has_new_mentions w since_id s) = Return ms) /\
  (truthy_str since_id = true ->
   exists new rest,
     fst (has_new_mentions w since_id s) = Return new /\
     ms = (new ++ rest)%list /\
     Forall (fun m => has_id (default "" since_id) m = false) new /\
     match rest with
     | [] => True
     | m :: _ => has_id (default "" since_id) m = true
     end).
Proof.
  intros Hms. unfold has_new_mentions, bind.
  destruct (get_mentions w 20 s) as [[ms'|e] s2]; simpl in Hms; [|discriminate].
  injection Hms as ->.
  destruct (truthy_str since_id); simpl.
  - split; [reflexivity|]. split; [discriminate|]. intros _.
    destruct (collect_until_prefix (default "" since_id) ms)
      as [rest [Heq [Hall Hrest]]].
    exists (collect_until (default "" since_id) ms), rest. auto.
  - split; [reflexivity|]. split; [reflexivity|]. discriminate.
Qed.

(** Asked for what is new since [m2], BLACK gets the older [m1]. *)
Lemma has_new_mentions_older_witness :
  snd (has_new_mentions chatty_world (Some "m2") black_session)
  = snd (get_mentions chatty_world 20 black_session).
Proof.
  exact (proj1 (has_new_mentions_older chatty_world (Some "m2") black_session
                  (rev three_mentions) eq_refl)).
Defined.

(** ** The session: presence *)

Lemma substring_0_length (n : nat) (s : string) :
  String.length (String.substring 0 n s) = Nat.min n (String.length s).
Proof.
  revert s. induction n as [|n IH]; intros [|c s]; simpl; try reflexivity.
  now rewrite IH.
Qed.

Lemma substring_0_prefix (n : nat) (s : string) :
  String.prefix (String.substring 0 n s) s = true.
Proof.
  revert s. induction n as [|n IH]; intros [|c s]; simpl; try reflexivity.
  destruct (ascii_dec c c) as [_|Hne]; [apply IH|now destruct Hne].
Qed.

Lemma substring_0_all (n : nat) (s : string) :
  (String.length s <= n)%nat -> String.substring 0 n s = s.
Proof.
  revert s. induction n as [|n IH]; intros [|c s]; simpl; intros Hle;
    try reflexivity; [lia|].
  rewrite IH; [reflexivity|lia].
Qed.

(** What [_update_working_on] sends on a connected session: the lookup of
    the instance row, and then either nothing or one patch of the row's
    truthy id. *)
Lemma update_working_on_requests (w : World) (working_on : string) (s : state) :
  connected (self s) = true ->
  let s1 := logged (GetClaudeInstances ("eq." ++ fmt (claude_name (self s)))
                      ("eq." ++ fmt (team_id (self s)))) s in
  _update_working_on w working_on s = (Return false, s1) \/
  exists instance_id,
    truthy instance_id = true /\
    _update_working_on w working_on s =
    (Return (patch_accepted
               (patch_claude_instances w instance_id
                  (truncate_working_on working_on))),
     logged (PatchClaudeInstances instance_id (truncate_working_on working_on))
       s1).
Proof.
  intros Hc s1.
  remember (_update_working_on w working_on s) as r eqn:Hr.
  unfold _update_working_on, bind at 1, attempt in Hr.
  destruct (get_my_instance_connected w s Hc) as [i Hi].
  rewrite Hi in Hr. fold s1 in Hr.
  destruct (negb (truthy i)); [now left|].
  destruct i as [| | | | |i]; try (now left).
  destruct (truthy (row_get "id" i)) eqn:Hid; [|now left].
  right. exists (row_get "id" i). split; [exact Hid|].
  rewrite Hr. unfold bind, issue, ret, logged, patch_accepted. simpl.
  destruct (patch_claude_instances w (row_get "id" i) _); reflexivity.
Qed.

(** [_update_working_on] on a connected session never raises and leaves
    the object alone.  It looks the instance row up and sends at most one
    patch, to a truthy id; the text it sends is the first 200 characters of
    [working_on] (all of it when it is no longer than that) and [None] for
    the empty text; it returns [True] exactly when the patch is answered
    200 or 204. *)
Theorem update_working_on_patch (w : World) (working_on : string) (s : state) :
  connected (self s) = true ->
  let s1 := logged (GetClaudeInstances ("eq." ++ fmt (claude_name (self s)))
                      ("eq." ++ fmt (team_id (self s)))) s in
  (_update_working_on w working_on s = (Return false, s1) \/
   exists instance_id,
     truthy instance_id = true /\
     _update_working_on w working_on s =
     (Return (patch_accepted
                (patch_claude_instances w instance_id
                   (truncate_working_on working_on))),
      logged (PatchClaudeInstances instance_id (truncate_working_on working_on))
        s1)) /\
  (truncate_working_on working_on = None <-> working_on = "") /\
  (forall sent,
     truncate_working_on working_on = Some sent ->
     String.length sent = Nat.min 200 (String.length working_on) /\
     String.prefix sent working_on = true) /\
  ((String.length working_on <= 200)%nat -> working_on <> "" ->
   truncate_working_on working_on = Some working_on).
Proof.
  intros Hc s1. split; [exact (update_working_on_requests w working_on s Hc)|].
  unfold truncate_working_on.
  destruct (String.eqb_spec working_on "") as [->|Hne].
  - split; [tauto|]. split; [discriminate|]. intros _ Hn. now destruct Hn.
  - split; [split; [discriminate|tauto]|]. split.
    + intros sent [= <-]. split;
        [apply substring_0_length|apply substring_0_prefix].
    + intros Hlen _. now rewrite substring_0_all.
Qed.

(** BLACK's instance row is patched with the text. *)
Lemma update_working_on_patch_witness :
  truncate_working_on "Migrating pimages.html" = Some "Migrating pimages.html".
Proof.
  apply (update_working_on_patch presence_down_world "Migrating pimages.html"
           black_session eq_refl); [simpl; lia|discriminate].
Defined.

Lemma update_working_on_issued (w : World) (working_on : string) (s : state) :
  connected (self s) = true ->
  exists (b : bool) (s' : state) (issued : list request),
    _update_working_on w working_on s = (Return b, s') /\
    self s' = self s /\
    requests s' = (requests s ++ issued)%list /\
    Forall (fun r => (exists n t, r = GetClaudeInstances n t) \/
                     (exists i body, r = PatchClaudeInstances i body)) issued.
Proof.
  intros Hc.
  destruct (update_working_on_requests w working_on s Hc)
    as [Hrun|[instance_id [_ Hrun]]]; rewrite Hrun.
  - eexists _, _, [_]. split; [reflexivity|]. split; [reflexivity|].
    split; [reflexivity|]. constructor; [|constructor]. left. eauto.
  - eexists _, _, [_; _]. split; [reflexivity|]. split; [reflexivity|].
    split; [simpl; now rewrite <- app_assoc|].
    constructor; [left; eauto|]. constructor; [right; eauto|constructor].
Qed.

Lemma fold_mentions_ok (presence : bool) (found : option (list jdict)) :
  ok (fold_mentions presence found) = presence.
Proof. destruct found as [[|m ms]|]; reflexivity. Qed.

Lemma fold_mentions_none (presence : bool) (found : option (list jdict)) :
  hb_mentions (fold_mentions presence found) = 0%nat ->
  mention_projects (fold_mentions presence found) = [].
Proof. destruct found as [[|m ms]|]; simpl; try reflexivity. discriminate. Qed.

Lemma heartbeat_after_connect (w : World) (status : string)
    (working_on : option string) (check_mentions : bool) (s s1 : state) :
  _ensure_connected w s = (Return true, s1) ->
  connected (self s1) = true /\
  heartbeat w status working_on check_mentions s =
  heartbeat w status working_on check_mentions s1.
Proof.
  intros H.
  destruct (ensure_connected_Return w s s1 true H) as [Hc _].
  split; [assumption|].
  unfold heartbeat, bind at 1.
  rewrite H. symmetry. unfold bind at 1.
  now rewrite (ensure_connected_true w s1 Hc).
Qed.

Ltac heartbeat_enter Hc :=
  unfold heartbeat, bind at 1;
  rewrite (ensure_connected_true _ _ Hc); simpl;
  unfold bind at 1; unfold gets at 1; simpl;
  unfold bind at 1; unfold gets at 1; simpl;
  unfold bind at 1; unfold issue at 1; simpl.

Ltac heartbeat_tail check_mentions :=
  repeat match goal with x := _ |- _ => subst x end;
  unfold logged;
  destruct check_mentions; [|reflexivity];
  unfold bind, attempt, ret;
  match goal with
  | |- context [get_mentions ?w ?l ?s] =>
      destruct (get_mentions w l s) as [[[|? ?]|?] ?]
  end; simpl; try reflexivity;
  match goal with
  | |- context [py_set ?a ?l] => destruct (py_set a l)
  end; reflexivity.

(** On a connected session [heartbeat] sends the presence call, patches
    the instance row only after a successful presence call with a
    [working_on], and then folds the mention scan into a result whose [ok]
    is the outcome of the presence call. *)
Lemma heartbeat_connected (w : World) (status : string)
    (working_on : option string) (s : state) :
  connected (self s) = true ->
  let presence :=
    presence_ok (rpc_heartbeat w (api_key (self s)) status (project_slug (self s))) in
  let s1 :=
    logged (PostHeartbeat (api_key (self s)) status (project_slug (self s))) s in
  exists mid,
    self mid = self s /\
    (presence = false \/ working_on = None -> mid = s1) /\
    (exists issued,
       requests mid = (requests s1 ++ issued)%list /\
       Forall (fun r => (exists n t, r = GetClaudeInstances n t) \/
                        (exists i body, r = PatchClaudeInstances i body)) issued) /\
    forall check_mentions,
      heartbeat w status working_on check_mentions s =
      (if check_mentions then
         found <- attempt (get_mentions w 20) ;;
         ret (fold_mentions presence found)
       else ret (fold_mentions presence None)) mid.
Proof.
  intros Hc presence s1. subst presence.
  assert (Hc1 : connected (self s1) = true) by exact Hc.
  destruct (rpc_heartbeat w (api_key (self s)) status (project_slug (self s)))
    as [|code [j|]] eqn:Hresp; simpl.
  - exists s1. split; [reflexivity|]. split; [reflexivity|].
    split; [exists []; split; [now rewrite app_nil_r|constructor]|].
    intros check_mentions. heartbeat_enter Hc. rewrite Hresp. fold s1.
    unfold bind at 1. unfold ret at 1.
    heartbeat_tail check_mentions.
  - destruct (code =? 200) eqn:Hcode; simpl.
    + destruct (eq_True j) eqn:Hj.
      * destruct working_on as [wo|].
        -- destruct (update_working_on_issued w wo s1 Hc1)
             as [b [s' [issued [Hup [Hself [Hreq Hall]]]]]].
           exists s'. split; [exact Hself|].
           split; [intros [|]; discriminate|].
           split; [exists issued; split; assumption|].
           intros check_mentions. heartbeat_enter Hc. rewrite Hresp, Hcode. simpl. rewrite Hj.
           change {| self := self s;
                     requests := requests s ++
                       [PostHeartbeat (api_key (self s)) status
                          (project_slug (self s))] |} with s1.
           unfold bind at 1. unfold bind at 1. unfold when. unfold bind at 1.
           rewrite Hup. unfold ret at 1. unfold ret at 1.
           heartbeat_tail check_mentions.
        -- exists s1. split; [reflexivity|]. split; [reflexivity|].
    split; [exists []; split; [now rewrite app_nil_r|constructor]|].
           intros check_mentions. heartbeat_enter Hc. rewrite Hresp, Hcode. simpl. rewrite Hj.
           fold s1. unfold bind at 1. unfold bind at 1. unfold ret at 1.
           unfold ret at 1.
           heartbeat_tail check_mentions.
      * exists s1. split; [reflexivity|]. split; [reflexivity|].
    split; [exists []; split; [now rewrite app_nil_r|constructor]|].
        intros check_mentions. heartbeat_enter Hc. rewrite Hresp, Hcode. simpl. rewrite Hj.
        fold s1. unfold bind at 1. unfold bind at 1.
        destruct working_on; unfold when, ret at 1; unfold ret at 1;
          heartbeat_tail check_mentions.
    + exists s1. split; [reflexivity|]. split; [reflexivity|].
    split; [exists []; split; [now rewrite app_nil_r|constructor]|].
      intros check_mentions. heartbeat_enter Hc. rewrite Hresp, Hcode. fold s1.
      unfold bind at 1. unfold ret at 1.
      heartbeat_tail check_mentions.
  - exists s1. split; [reflexivity|]. split; [reflexivity|].
    split; [exists []; split; [now rewrite app_nil_r|constructor]|].
    intros check_mentions. heartbeat_enter Hc. rewrite Hresp. fold s1.
    unfold bind at 1.
    destruct (code =? 200); unfold ret at 1; heartbeat_tail check_mentions.
Qed.

(** On a connected session [heartbeat] never raises, whatever the backend
    answers; on a session that has to connect first, the one exception
    that escapes is the [AttributeError] of the auto-connect.  When it
    returns, its [ok] is true only on a connected session whose presence
    call was answered 200 with a true body; without the mention check it
    counts no mention; it names no project without a mention; and when the
    session cannot connect it returns the all-false result having sent
    nothing more. *)
Theorem heartbeat_raises_only_connecting (w : World) (status : string)
    (working_on : option string) (check_mentions : bool) (s : state) :
  exists (o : outcome heartbeat_result) (s' : state),
    heartbeat w status working_on check_mentions s = (o, s') /\
    (connected (self s) = true -> exists r, o = Return r) /\
    (forall e, o = Raise e ->
       e = AttributeError /\
       _ensure_connected w s = (Raise AttributeError, s')) /\
    (forall r, o = Return r ->
       (ok r = true ->
        connected (self s') = true /\
        presence_ok (rpc_heartbeat w (api_key (self s')) status
                       (project_slug (self s'))) = true) /\
       (check_mentions = false -> hb_mentions r = 0%nat) /\
       (hb_mentions r = 0%nat -> mention_projects r = [])) /\
    (fst (_ensure_connected w s) = Return false ->
     o = Return {| ok := false; hb_mentions := 0; mention_projects := [] |} /\
     s' = snd (_ensure_connected w s)).
Proof.
  destruct (ensure_connected_post w s) as [c [s1 [Heq [Hcase _]]]].
  destruct Hcase as [-> | [-> Hoff]].
  - destruct (connected (self s1)) eqn:Hc.
    + destruct (heartbeat_after_connect w status working_on check_mentions s s1 Heq)
        as [_ ->].
      destruct (heartbeat_connected w status working_on s1 Hc)
        as [mid [Hself [_ [_ Hrun]]]].
      rewrite (Hrun check_mentions), Heq. clear Hrun.
      assert (Hcm : connected (self mid) = true) by (rewrite Hself; exact Hc).
      set (presence := presence_ok _).
      assert (Hfold : forall found (s' : state), self s' = self mid ->
        (ok (fold_mentions presence found) = true ->
         connected (self s') = true /\
         presence_ok (rpc_heartbeat w (api_key (self s')) status
                        (project_slug (self s'))) = true) /\
        (hb_mentions (fold_mentions presence found) = 0%nat ->
         mention_projects (fold_mentions presence found) = [])).
      { intros found s' Hs'. split; [|apply fold_mentions_none].
        rewrite fold_mentions_ok, Hs', Hself. intros Hp. split; assumption. }
      destruct check_mentions.
      * unfold bind, attempt, ret.
        rewrite (get_mentions_connected w 20 mid Hcm).
        set (s2 := logged (GetChat (api_key (self mid)) (project_slug (self mid)) 20)
                     mid).
        destruct (filter_rows (is_mention (self mid)) (chat_view w 20 (self mid)))
          as [ms|e]; eexists _, _; (split; [reflexivity|]);
          (split; [intros _; eexists; reflexivity|]);
          (split; [discriminate|]).
        -- split; [|discriminate]. intros r [= <-].
           split; [exact (proj1 (Hfold (Some ms) s2 eq_refl))|].
           split; [discriminate|exact (proj2 (Hfold (Some ms) s2 eq_refl))].
        -- split; [|discriminate]. intros r [= <-].
           split; [exact (proj1 (Hfold None s2 eq_refl))|].
           split; [discriminate|exact (proj2 (Hfold None s2 eq_refl))].
      * unfold ret. eexists _, _. split; [reflexivity|].
        split; [intros _; eexists; reflexivity|].
        split; [discriminate|].
        split; [|discriminate]. intros r [= <-].
        split; [exact (proj1 (Hfold None mid eq_refl))|].
        split; [reflexivity|exact (proj2 (Hfold None mid eq_refl))].
    + assert (Hs : connected (self s) = false).
      { destruct (connected (self s)) eqn:Hcs; [|reflexivity].
        rewrite (ensure_connected_true w s Hcs) in Heq.
        injection Heq as <-. congruence. }
      unfold heartbeat, bind at 1. rewrite Heq. simpl.
      eexists _, _. split; [reflexivity|]. simpl.
      split; [rewrite Hs; discriminate|]. split; [discriminate|].
      split; [intros r [= <-]; repeat split; discriminate|].
      intros _. split; reflexivity.
  - assert (Hs : connected (self s) = false).
    { destruct (connected (self s)) eqn:Hcs; [|reflexivity].
      rewrite (ensure_connected_true w s Hcs) in Heq. discriminate. }
    unfold heartbeat, bind at 1. rewrite Heq.
    eexists _, _. split; [reflexivity|].
    split; [rewrite Hs; discriminate|].
    split; [intros e [= <-]; split; reflexivity|].
    split; [discriminate|]. discriminate.
Qed.

(** A session without a credential gets the all-false result; a session
    whose key the backend answers with an array of one string gets the
    exception of its auto-connect. *)
Lemma heartbeat_raises_only_connecting_witness :
  fst (heartbeat chatty_world "active" None true fresh)
  = Return {| ok := false; hb_mentions := 0; mention_projects := [] |} /\
  fst (heartbeat malformed_world "active" None true held_session)
  = Raise AttributeError.
Proof.
  split; [|reflexivity].
  destruct (heartbeat_raises_only_connecting chatty_world "active" None true fresh)
    as [o [s' [Hrun [_ [_ [_ Hoff]]]]]].
  destruct (Hoff eq_refl) as [Hr _]. rewrite Hrun, Hr. reflexivity.
Defined.

(** On a connected session the mention scan of [heartbeat] is independent
    of the presence call: the result counts the mentions of [get_mentions]
    (none when the scan raises) whether or not the presence call succeeded.
    The presence call is sent first; the chat is fetched once, last, and
    only with the mention check; in between come only the lookup and the
    patch of the instance row, and none of them when the presence call
    failed or no [working_on] was given. *)
Theorem heartbeat_counts_mentions (w : World) (status : string)
    (working_on : option string) (s : state) :
  connected (self s) = true ->
  let k := api_key (self s) in
  let p := project_slug (self s) in
  let presence := presence_ok (rpc_heartbeat w k status p) in
  fst (heartbeat w status working_on true s) =
    Return (fold_mentions presence
              match filter_rows (is_mention (self s))
                      (chat_view w 20 (self s)) with
              | Return ms => Some ms
              | Raise _ => None
              end) /\
  exists issued,
    Forall (fun r => (exists n t, r = GetClaudeInstances n t) \/
                     (exists i body, r = PatchClaudeInstances i body)) issued /\
    (presence = false \/ working_on = None -> issued = []) /\
    requests (snd (heartbeat w status working_on true s)) =
      (requests s ++ PostHeartbeat k status p :: issued ++ [GetChat k p 20])%list /\
    requests (snd (heartbeat w status working_on false s)) =
      (requests s ++ PostHeartbeat k status p :: issued)%list.
Proof.
  intros Hc k p presence.
  destruct (heartbeat_connected w status working_on s Hc)
    as [mid [Hself [Hmid [[issued [Hreq Hall]] Hrun]]]].
  rewrite !Hrun. clear Hrun.
  assert (Hcm : connected (self mid) = true) by (rewrite Hself; exact Hc).
  unfold bind, attempt, ret.
  rewrite (get_mentions_connected w 20 mid Hcm). rewrite Hself.
  split.
  - destruct (filter_rows (is_mention (self s)) (chat_view w 20 (self s)));
      reflexivity.
  - exists issued. split; [exact Hall|].
    split.
    { intros Hquiet. rewrite (Hmid Hquiet) in Hreq.
      apply (app_inv_head (requests
               (logged (PostHeartbeat (api_key (self s)) status
                          (project_slug (self s))) s))).
      now rewrite app_nil_r. }
    assert (Hlog : requests
              (logged (GetChat (api_key (self s)) (project_slug (self s)) 20) mid)
            = (requests s ++ PostHeartbeat k status p :: issued
                 ++ [GetChat k p 20])%list).
    { unfold logged at 1. simpl. rewrite Hreq. unfold logged. simpl.
      rewrite <- !app_assoc. reflexivity. }
    split.
    + destruct (filter_rows (is_mention (self s)) (chat_view w 20 (self s)));
        exact Hlog.
    + simpl. rewrite Hreq. unfold logged. simpl.
      rewrite <- !app_assoc. reflexivity.
Qed.

(** The presence call is answered 500: BLACK's heartbeat still reports the
    three mentions and their project. *)
Lemma heartbeat_counts_mentions_witness :
  fst (heartbeat presence_down_world "busy" (Some "Migrating pimages.html") true
         black_session)
  = Return {| ok := false; hb_mentions := 3;
              mention_projects := [JStr "claude-colab"] |}.
Proof.
  exact (proj1 (heartbeat_counts_mentions presence_down_world "busy"
                  (Some "Migrating pimages.html") black_session eq_refl)).
Defined.

(** Every reader guards on the auto-connect: when the session cannot
    connect, each method returns its empty value (also a hard [checkpoint],
    which does not raise) and sends nothing after the connection attempt. *)
Theorem offline_methods_return_empty (w : World) (s : state) :
  fst (_ensure_connected w s) = Return false ->
  let s1 := snd (_ensure_connected w s) in
  (forall limit, get_chat w limit s = (Return [], s1)) /\
  (forall limit, get_mentions w limit s = (Return [], s1)) /\
  (forall since_id, has_new_mentions w since_id s = (Return [], s1)) /\
  (forall status, get_tasks w status s = (Return (JList []), s1)) /\
  get_my_instance w s = (Return JNull, s1) /\
  (forall working_on, _update_working_on w working_on s = (Return false, s1)) /\
  (forall status working_on check_mentions,
     heartbeat w status working_on check_mentions s =
     (Return {| ok := false; hb_mentions := 0; mention_projects := [] |}, s1)) /\
  (forall name hard check_mentions check_tasks,
     checkpoint w name hard check_mentions check_tasks s =
     (Return {| passed := false; mentions := 0; tasks := 0;
                blockers := ["Not connected"] |}, s1)).
Proof.
  intros Hoff s1. subst s1.
  destruct (_ensure_connected w s) as [o s1] eqn:Heq. simpl in *. subst o.
  assert (Hmentions : forall limit, get_mentions w limit s = (Return [], s1)).
  { intros limit. unfold get_mentions, bind at 1. now rewrite Heq. }
  assert (Hinstance : get_my_instance w s = (Return JNull, s1)).
  { unfold get_my_instance, bind at 1. now rewrite Heq. }
  split; [intros limit; unfold get_chat, bind at 1; now rewrite Heq|].
  split; [exact Hmentions|].
  split.
  { intros since_id. unfold has_new_mentions, bind. rewrite Hmentions.
    now destruct (negb (truthy_str since_id)). }
  split; [intros status; unfold get_tasks, bind at 1; now rewrite Heq|].
  split; [exact Hinstance|].
  split.
  { intros working_on. unfold _update_working_on, bind at 1, attempt.
    now rewrite Hinstance. }
  split.
  { intros status working_on check_mentions.
    unfold heartbeat, bind at 1. now rewrite Heq. }
  intros name hard check_mentions check_tasks.
  unfold checkpoint, bind at 1. now rewrite Heq.
Qed.

(** A session without any credential: the hard checkpoint reports
    [Not connected] and does not raise. *)
Lemma offline_methods_return_empty_witness :
  checkpoint chatty_world "before_commit" true true true fresh
  = (Return {| passed := false; mentions := 0; tasks := 0;
               blockers := ["Not connected"] |},
     snd (_ensure_connected chatty_world fresh)).
Proof.
  apply (offline_methods_return_empty chatty_world fresh eq_refl).
Defined.

(** ** The session: the active project *)

(** The project chosen with [set_project] is kept by every later
    [connect], whatever the session was and however the call ends; and on
    a connected session it is the project whose chat [get_chat] asks for
    and under which [heartbeat] reports presence, while the task list does
    not depend on it. *)
Theorem set_project_scope (w : World) (slug : string) (s : state) :
  let s1 := snd (set_project slug s) in
  (forall key name, project_slug (self (snd (connect w key name s1))) = slug) /\
  (connected (self s) = true ->
   (forall limit,
      snd (get_chat w limit s1)
      = logged (GetChat (api_key (self s)) slug limit) s1) /\
   (forall status working_on check_mentions,
      exists rest,
        requests (snd (heartbeat w status working_on check_mentions s1)) =
        (requests s ++ PostHeartbeat (api_key (self s)) status slug :: rest)%list) /\
   (forall status, fst (get_tasks w status s1) = fst (get_tasks w status s))).
Proof.
  intros s1.
  split.
  { intros key name. rewrite connect_run. cbv zeta.
    destruct (resolve_keeps w key name (self s1)) as [_ [_ [_ [Hslug _]]]].
    destruct (negb (truthy_str (api_key (resolve w key name (self s1)))));
      [exact Hslug|].
    destruct (accepted w (api_key (resolve w key name (self s1))));
      exact Hslug. }
  intros Hc.
  assert (Hc1 : connected (self s1) = true) by exact Hc.
  split.
  { intros limit. now rewrite (get_chat_connected w limit s1 Hc1). }
  split.
  { intros status working_on check_mentions.
    destruct (heartbeat_connected w status working_on s1 Hc1)
      as [mid [Hself [_ [[issued [Hreq _]] Hrun]]]].
    rewrite Hrun.
    assert (Hcm : connected (self mid) = true) by (rewrite Hself; exact Hc1).
    assert (Hmid : requests mid =
              (requests s ++ PostHeartbeat (api_key (self s)) status slug
                 :: issued)%list).
    { rewrite Hreq. unfold logged. simpl. now rewrite <- app_assoc. }
    destruct check_mentions.
    - unfold bind, attempt, ret.
      rewrite (get_mentions_connected w 20 mid Hcm).
      exists (issued ++ [GetChat (api_key (self mid)) (project_slug (self mid)) 20])%list.
      destruct (filter_rows (is_mention (self mid)) (chat_view w 20 (self mid)));
        simpl; rewrite Hmid, <- app_assoc; reflexivity.
    - exists issued. exact Hmid. }
  intros status.
  now rewrite (get_tasks_connected w status s1 Hc1),
              (get_tasks_connected w status s Hc).
Qed.

(** BLACK switches to another project and reads its chat; a fresh
    session keeps the project through its first [connect]. *)
Lemma set_project_scope_witness :
  snd (get_chat chatty_world 20 (snd (set_project "medieval-game" black_session)))
  = logged (GetChat (Some "cc_key") "medieval-game" 20)
      (snd (set_project "medieval-game" black_session)) /\
  project_slug (self (snd (connect chatty_world (Some "cc_key") None
                             (snd (set_project "medieval-game" fresh)))))
  = "medieval-game".
Proof.
  split.
  - exact (proj1 (proj2 (set_project_scope chatty_world "medieval-game"
                           black_session) eq_refl) 20).
  - exact (proj1 (set_project_scope chatty_world "medieval-game" fresh)
             (Some "cc_key") None).
Defined.
